(** * TMDb labels for Plex: the label reconciliation pass of [labeller.py]

    A shallow embedding of the label classification and reconciliation code
    of [labeller.py] (the helpers [set_label], [set_status_label],
    [remove_all_special_labels], [set_episode_special_labels], [chunks] and
    the body of the main processing loop), followed by the properties of the
    pass.

    Conventions of the embedding:
    - a Plex object is a pair of label sets: what the server holds and what
      the local Python object shows in [obj.labels] since it was fetched or
      last reloaded; [addLabel]/[removeLabel] edit the server side only and
      [reload] refreshes the local side;
    - the seasons returned by [show.seasons()] are a list, and
      [latest_season], which is one of its elements, is kept as a position in
      that list, so that an edit through [latest_season] is seen when the
      main loop reaches the same object;
    - TMDb JSON payloads are records; an ISO date string is represented by
      the calendar date it denotes, a missing or empty field by [None];
    - an exception that escapes to the [except Exception] of the main loop is
      an outcome of the loop body. *)

From Stdlib Require Import ZArith String Ascii Lia.
From stdpp Require Import gmap strings list fin_sets.

#[local] Set Warnings "-clear-no-such-hyp".
Local Open Scope Z_scope.

(** ** Python's [str] methods used by the script (ASCII range) *)

Module PyStr.

Definition is_upper (c : ascii) : bool :=
  let n := nat_of_ascii c in ((65 <=? n) && (n <=? 90))%nat.

Definition is_lower (c : ascii) : bool :=
  let n := nat_of_ascii c in ((97 <=? n) && (n <=? 122))%nat.

Definition is_alpha (c : ascii) : bool := is_upper c || is_lower c.

Definition to_lower (c : ascii) : ascii :=
  if is_upper c then ascii_of_nat (nat_of_ascii c + 32) else c.

Definition to_upper (c : ascii) : ascii :=
  if is_lower c then ascii_of_nat (nat_of_ascii c - 32) else c.

(** [s.lower()] *)
Fixpoint lower (s : string) : string :=
  match s with
  | EmptyString => EmptyString
  | String c s' => String (to_lower c) (lower s')
  end.

(** [s.title()]: a cased character is upper-cased when the character before
    it is not a letter, lower-cased otherwise. *)
Fixpoint title_from (prev_cased : bool) (s : string) : string :=
  match s with
  | EmptyString => EmptyString
  | String c s' =>
      String (if prev_cased then to_lower c else to_upper c)
             (title_from (is_alpha c) s')
  end.

Definition title (s : string) : string := title_from false s.

(** [s.startswith(p)] *)
Definition startswith (s p : string) : bool := String.prefix p s.

(** Truthiness of a string. *)
Definition truthy (s : string) : bool := negb (String.eqb s "").

End PyStr.

(** ** [datetime.date] and [datetime.datetime] *)

Module PyDate.

Record date := mkdate { year : Z; month : Z; day : Z }.

Definition is_leap (y : Z) : bool :=
  (y mod 4 =? 0) && (negb (y mod 100 =? 0) || (y mod 400 =? 0)).

Definition days_before_year (y : Z) : Z :=
  let y := y - 1 in y * 365 + y / 4 - y / 100 + y / 400.

Definition DAYS_BEFORE_MONTH : list Z :=
  [0; 0; 31; 59; 90; 120; 151; 181; 212; 243; 273; 304; 334].

Definition days_before_month (y m : Z) : Z :=
  nth (Z.to_nat m) DAYS_BEFORE_MONTH 0
  + (if (2 <? m) && is_leap y then 1 else 0).

(** [d.toordinal()]: 1 for 0001-01-01. *)
Definition toordinal (d : date) : Z :=
  days_before_year (year d) + days_before_month (year d) (month d) + day d.

(** [(a - b).days] *)
Definition days_between (a b : date) : Z := toordinal a - toordinal b.

(** [a <= b] and [a > b] on dates: the order of (year, month, day). *)
Definition date_leb (a b : date) : bool :=
  (year a <? year b)
  || ((year a =? year b)
      && ((month a <? month b)
          || ((month a =? month b) && (day a <=? day b)))).

Definition date_gtb (a b : date) : bool := negb (date_leb a b).

(** [d.weekday()]: Monday is 0. *)
Definition weekday (d : date) : Z := (toordinal d + 6) mod 7.

Definition DAY_NAMES : list string :=
  ["Monday"; "Tuesday"; "Wednesday"; "Thursday"; "Friday"; "Saturday";
   "Sunday"]%string.

Definition digit (n : Z) : string :=
  String (ascii_of_nat (48 + Z.to_nat n)) EmptyString.

Definition two_digits (n : Z) : string :=
  (digit ((n / 10) mod 10) +:+ digit (n mod 10))%string.

(** [d.strftime("%A")], [d.strftime("%m/%d")] and [d.strftime("%d/%m")] *)
Definition strftime_A (d : date) : string :=
  nth (Z.to_nat (weekday d)) DAY_NAMES ""%string.

Definition strftime_m_d (d : date) : string :=
  (two_digits (month d) +:+ "/" +:+ two_digits (day d))%string.

Definition strftime_d_m (d : date) : string :=
  (two_digits (day d) +:+ "/" +:+ two_digits (month d))%string.

(** A naive [datetime]: a date and the microseconds since midnight. *)
Record datetime := mkdatetime { dt_date : date; dt_micro : Z }.

(** [datetime.fromisoformat(s)] of a date-only string is midnight. *)
Definition midnight (d : date) : datetime :=
  {| dt_date := d; dt_micro := 0 |}.

Definition date_eqb (a b : date) : bool :=
  (year a =? year b) && (month a =? month b) && (day a =? day b).

(** [a > b] on datetimes: the order of (date, time of day). *)
Definition datetime_gtb (a b : datetime) : bool :=
  date_gtb (dt_date a) (dt_date b)
  || (date_eqb (dt_date a) (dt_date b) && (dt_micro b <? dt_micro a)).

End PyDate.

Import PyDate.

Local Open Scope string_scope.
Local Open Scope Z_scope.

(** ** Configuration *)

Definition DATE_FORMAT : string := "MM/DD".
Definition DAY_INDICATOR : bool := true.
Definition DAYS_TO_CONSIDER : Z := 7.
Definition RETURNING_DAYS : Z := 28.

Definition SPECIAL_LABELS : gset string :=
  {[ "Pilot"; "Season Premiere"; "Season Finale"; "Series Finale";
     "Mid-Season Finale" ]}.

Definition STATUS_LABELS : gset string :=
  {[ "Status: Ended"; "Status: Canceled"; "Status: Returning Series" ]}.

(** ** The Plex side: objects with labels *)

Record PlexObj := mkObj {
  labels : gset string;   (* tags of [obj.labels], as of the last (re)load *)
  server : gset string    (* the labels the Plex server holds *)
}.

Definition reload (o : PlexObj) : PlexObj :=
  {| labels := server o; server := server o |}.

Definition addLabel (l : string) (o : PlexObj) : PlexObj :=
  {| labels := labels o; server := {[ l ]} ∪ server o |}.

Definition removeLabel (l : string) (o : PlexObj) : PlexObj :=
  {| labels := labels o; server := server o ∖ {[ l ]} |}.

(** A freshly fetched object: the local view is the server's. *)
Definition fetched (s : gset string) : PlexObj :=
  {| labels := s; server := s |}.

Record PlexSeason := mkSeason {
  index : Z;                                (* [season.index] *)
  season_obj : PlexObj;
  season_episodes : gmap Z (gset string)    (* [episode.index] to its labels *)
}.

Record PlexShow := mkShow {
  tmdb_guid : option string;   (* what [get_tmdb_id(show)] returns *)
  show_obj : PlexObj;
  seasons : list PlexSeason    (* [show.seasons()] *)
}.

(** ** The TMDb side *)

Record NextEpisode := mkNext {
  air_date : option date;
  season_number : option Z;
  episode_number : option Z
}.

Record TmdbShow := mkTmdb {
  status : string;                        (* [""] when absent *)
  last_air_date : option date;
  next_episode_to_air : option NextEpisode
}.

Record TmdbEpisode := mkEp {
  ep_air_date : option date;
  ep_number : Z;
  ep_type : string                        (* [""] when absent *)
}.

(** Truthiness of an optional integer field: absent and [0] are both false. *)
Definition truthy_int (o : option Z) : bool :=
  match o with Some n => negb (n =? 0) | None => false end.

(** ** [set_label] *)

Definition set_label (obj : PlexObj) (label : string) : PlexObj * bool :=
  let obj := reload obj in
  let existing := labels obj in
  let '(obj, modified) :=
    set_fold (fun l '(o, m) =>
                if bool_decide (l ≠ label) then (removeLabel l o, true)
                else (o, m))
             (obj, false) (existing ∩ SPECIAL_LABELS) in
  if PyStr.truthy label && bool_decide (label ∉ existing)
  then (addLabel label obj, true)
  else (obj, modified).

(** ** [remove_all_special_labels] *)

Definition remove_all_special_labels (obj : PlexObj) : PlexObj :=
  let obj := reload obj in
  set_fold (fun l o =>
              if bool_decide (l ∈ SPECIAL_LABELS) then removeLabel l o else o)
           obj (labels obj).

(** ** [set_episode_special_labels] *)

Definition set_episode_special_labels (episode : PlexObj)
    (new_labels : gset string) : PlexObj * bool :=
  let episode := reload episode in
  let existing_labels := labels episode in
  let '(episode, modified) :=
    set_fold (fun label '(o, m) =>
                if bool_decide (label ∉ new_labels)
                then (removeLabel label o, true) else (o, m))
             (episode, false) (existing_labels ∩ SPECIAL_LABELS) in
  set_fold (fun label '(o, m) =>
              if bool_decide (label ∉ existing_labels)
              then (addLabel label o, true) else (o, m))
           (episode, modified) new_labels.

(** ** [set_status_label] *)

(** The test of lines 184, 192 and 203, and the one of line 214. *)
Definition is_upcoming (l : string) : bool :=
  PyStr.startswith l "New Episode" || PyStr.startswith l "New Season"
  || PyStr.startswith l "Returning".

Definition is_returning (l : string) : bool := PyStr.startswith l "Returning".

(** The block repeated at lines 181-188, 189-196, 200-207 (with [is_upcoming])
    and 211-218 (with [is_returning]): reload, remove every present label
    that [stale] selects, add [label] unless it was present at the reload. *)
Definition replace_stale (stale : string → bool) (label : string)
    (obj : PlexObj) : PlexObj :=
  let obj := reload obj in
  let existing := labels obj in
  let obj :=
    set_fold (fun l o => if stale l then removeLabel l o else o)
             obj existing in
  if bool_decide (label ∉ existing) then addLabel label obj else obj.

(** Which branch of lines 166-218 runs, with the label it builds. *)
Inductive upcoming :=
| NewEpisode (label : string)
| NewSeason (label : string)
| Returning (returning_label : string)
| NoUpcoming.

(** Lines 173-176. *)
Definition formatted_date (air : date) (days_until : Z) : string :=
  if DAY_INDICATOR && (days_until <=? 7) then strftime_A air
  else if String.eqb DATE_FORMAT "MM/DD" then strftime_m_d air
       else strftime_d_m air.

Definition upcoming_label (next_ep : option NextEpisode) (latest_index : Z)
    (today : date) : upcoming :=
  match next_ep with
  | None => NoUpcoming
  | Some next_ep =>
      match air_date next_ep with
      | Some air =>
          if truthy_int (season_number next_ep)
             && truthy_int (episode_number next_ep)
          then
            let season_number := default 0 (season_number next_ep) in
            let episode_number := default 0 (episode_number next_ep) in
            let days_until := days_between air today in
            let formatted_date := formatted_date air days_until in
            if days_until <=? DAYS_TO_CONSIDER then
              if (season_number =? latest_index)
                 && negb (episode_number =? 1)
              then NewEpisode ("New Episode " +:+ formatted_date)
              else NewSeason ("New Season " +:+ formatted_date)
            else if days_until <=? RETURNING_DAYS then
              Returning ("Returning " +:+ formatted_date)
            else NoUpcoming
          else NoUpcoming
      | None => NoUpcoming
      end
  end.

(** Lines 219-226, on the local view of [show.labels] left by the last
    reload. *)
Definition apply_status (tmdb_status : string) (show : PlexObj) : PlexObj :=
  let existing := labels show in
  let show :=
    set_fold (fun label o => removeLabel label o) show
             (existing ∩ STATUS_LABELS) in
  if PyStr.truthy tmdb_status then
    let status_label := "Status: " +:+ PyStr.title tmdb_status in
    if bool_decide (status_label ∉ existing) then addLabel status_label show
    else show
  else show.

Definition with_obj (season : PlexSeason) (o : PlexObj) : PlexSeason :=
  {| index := index season; season_obj := o;
     season_episodes := season_episodes season |}.

(** [tmdb_data] is the global the function reads; the result is the show
    object and the [latest_season] object after the call. *)
Definition set_status_label (tmdb_data : TmdbShow) (today : date)
    (show : PlexObj) (tmdb_status : string) (latest_season : PlexSeason)
    : PlexObj * PlexSeason :=
  let next_ep := next_episode_to_air tmdb_data in
  let '(show, latest_season) :=
    match upcoming_label next_ep (index latest_season) today with
    | NewEpisode label =>
        (replace_stale is_upcoming label show,
         with_obj latest_season
           (replace_stale is_upcoming label (season_obj latest_season)))
    | NewSeason label =>
        (replace_stale is_upcoming label show, latest_season)
    | Returning returning_label =>
        (replace_stale is_returning returning_label show, latest_season)
    | NoUpcoming => (show, latest_season)
    end in
  (apply_status tmdb_status show, latest_season).

(** ** [chunks] *)

Fixpoint chunks_from {A} (fuel : nat) (n : nat) (lst : list A)
    : list (list A) :=
  match fuel, lst with
  | O, _ | _, [] => []
  | S fuel, _ => take n lst :: chunks_from fuel n (drop n lst)
  end.

Definition chunks {A} (lst : list A) (n : nat) : list (list A) :=
  chunks_from (length lst) n lst.

(** ** Python's [max(xs, key=...)]: the first element with the largest key,
    here with its position *)

Fixpoint py_max_from {A} (key : A → Z) (best_pos : nat) (best : A)
    (pos : nat) (l : list A) : nat * A :=
  match l with
  | [] => (best_pos, best)
  | x :: l' =>
      if key best <? key x then py_max_from key pos x (S pos) l'
      else py_max_from key best_pos best (S pos) l'
  end.

Definition py_max {A} (key : A → Z) (l : list A) : option (nat * A) :=
  match l with
  | [] => None
  | x :: l' => Some (py_max_from key 0%nat x 1%nat l')
  end.

(** ** A [dict] that keeps insertion order: [d[k] = v] *)

Fixpoint dict_set (k : Z) (v : string) (d : list (Z * string))
    : list (Z * string) :=
  match d with
  | [] => [(k, v)]
  | (k', v') :: d' =>
      if k =? k' then (k, v) :: d' else (k', v') :: dict_set k v d'
  end.

(** ** The body of the main loop *)

(** Lines 309-321: [fetch batch] is the answer to the request for one batch,
    [None] for a status other than 200, else the ["season/n"] parts present
    in the JSON, each with its ["episodes"] list. *)
Definition fetch_seasons (fetch : list Z → option (gmap Z (list TmdbEpisode)))
    (season_numbers : list Z) : gmap Z (list TmdbEpisode) :=
  foldl (fun all_tmdb_data batch =>
           match fetch batch with
           | None => all_tmdb_data
           | Some data =>
               foldl (fun all_tmdb_data n =>
                        match data !! n with
                        | Some part => <[n := part]> all_tmdb_data
                        | None => all_tmdb_data
                        end)
                     all_tmdb_data batch
           end)
        ∅ (chunks season_numbers 20).

(** Lines 323-324; [None] is the [ValueError] of [max()] on no key. *)
Definition final_season_index (all_tmdb_data : gmap Z (list TmdbEpisode))
    : option Z :=
  match elements (dom all_tmdb_data) with
  | [] => None
  | k :: ks => Some (foldl Z.max k ks)
  end.

(** Lines 338-339. *)
Definition aired_episodes (today : date) (tmdb_episodes : list TmdbEpisode)
    : list TmdbEpisode :=
  List.filter (fun ep => match ep_air_date ep with
                         | Some d => date_leb d today
                         | None => false
                         end) tmdb_episodes.

Definition terminal_status (tmdb_status : string) : bool :=
  String.eqb tmdb_status "ended" || String.eqb tmdb_status "canceled".

(** Lines 347-357. *)
Definition season_candidate_label (season_index final_season_index : Z)
    (tmdb_status : string) (last_ep : TmdbEpisode) : option string :=
  let ep_type := PyStr.lower (ep_type last_ep) in
  let ep_num := ep_number last_ep in
  if ep_num =? 1 then
    Some (if season_index =? 1 then "Pilot" else "Season Premiere")
  else if String.eqb ep_type "mid_season" then Some "Mid-Season Finale"
  else if String.eqb ep_type "finale" then
    Some (if (season_index =? final_season_index)
             && terminal_status tmdb_status
          then "Series Finale" else "Season Finale")
  else None.

(** Lines 380-389. *)
Definition episode_candidate (season_index final_season_index : Z)
    (tmdb_status : string) (ep : TmdbEpisode) : option string :=
  if (season_index =? 1) && (ep_number ep =? 1) then Some "Pilot"
  else if ep_number ep =? 1 then Some "Season Premiere"
  else if String.eqb (PyStr.lower (ep_type ep)) "mid_season" then
    Some "Mid-Season Finale"
  else if String.eqb (PyStr.lower (ep_type ep)) "finale" then
    Some (if (season_index =? final_season_index)
             && terminal_status tmdb_status
          then "Series Finale" else "Season Finale")
  else None.

(** Lines 370-391. *)
Definition candidate_episodes (today : date)
    (season_index final_season_index : Z) (tmdb_status : string)
    (tmdb_episodes : list TmdbEpisode) : list (Z * string) :=
  foldl (fun d ep =>
           match ep_air_date ep with
           | None => d
           | Some ep_date =>
               if date_gtb ep_date today then d
               else match episode_candidate season_index final_season_index
                            tmdb_status ep with
                    | Some candidate => dict_set (ep_number ep) candidate d
                    | None => d
                    end
           end)
        [] tmdb_episodes.

(** Lines 393-401: [season.episode(ep_number)] raises when Plex has no such
    episode. *)
Definition label_episode (acc : PlexSeason * bool) (item : Z * string)
    : PlexSeason * bool :=
  let '(season, any_modified) := acc in
  let '(ep_number, candidate_label) := item in
  match season_episodes season !! ep_number with
  | None => (season, any_modified)
  | Some stored =>
      let '(plex_ep, updated) :=
        set_episode_special_labels (fetched stored) {[ candidate_label ]} in
      ({| index := index season; season_obj := season_obj season;
          season_episodes :=
            <[ep_number := server plex_ep]> (season_episodes season) |},
       any_modified || updated)
  end.

(** Lines 329-401, one turn of [for season in plex_seasons]. *)
Definition process_season (today : date) (tmdb_status : string)
    (all_tmdb_data : gmap Z (list TmdbEpisode)) (final_season_index : Z)
    (latest_index : Z) (season : PlexSeason)
    (latest_season_label : option string) (any_modified : bool)
    : PlexSeason * option string * bool :=
  match all_tmdb_data !! index season with
  | None => (season, latest_season_label, any_modified)
  | Some tmdb_episodes =>
      match py_max ep_number (aired_episodes today tmdb_episodes) with
      | None =>
          (with_obj season (remove_all_special_labels (season_obj season)),
           latest_season_label, any_modified)
      | Some (_, last_ep) =>
          let season_label :=
            season_candidate_label (index season) final_season_index
                                   tmdb_status last_ep in
          let '(o, modified) :=
            match season_label with
            | Some l => set_label (season_obj season) l
            | None => (remove_all_special_labels (season_obj season), false)
            end in
          let season := with_obj season o in
          let any_modified := any_modified || modified in
          let latest_season_label :=
            if index season =? latest_index then season_label
            else latest_season_label in
          let '(season, any_modified) :=
            foldl label_episode (season, any_modified)
                  (candidate_episodes today (index season) final_season_index
                                      tmdb_status tmdb_episodes) in
          (season, latest_season_label, any_modified)
      end
  end.

(** Lines 328-401. *)
Fixpoint season_loop (today : date) (tmdb_status : string)
    (all_tmdb_data : gmap Z (list TmdbEpisode)) (final_season_index : Z)
    (latest_index : Z) (plex_seasons : list PlexSeason)
    (latest_season_label : option string) (any_modified : bool)
    : list PlexSeason * option string * bool :=
  match plex_seasons with
  | [] => ([], latest_season_label, any_modified)
  | season :: rest =>
      let '(season, latest_season_label, any_modified) :=
        process_season today tmdb_status all_tmdb_data final_season_index
                       latest_index season latest_season_label any_modified in
      let '(rest, latest_season_label, any_modified) :=
        season_loop today tmdb_status all_tmdb_data final_season_index
                    latest_index rest latest_season_label any_modified in
      (season :: rest, latest_season_label, any_modified)
  end.

(** Line 309. *)
Definition season_numbers (plex_seasons : list PlexSeason) : list Z :=
  List.filter (fun n => negb (n =? 0)) (index <$> plex_seasons).

(** How one turn of [for idx, show in enumerate(all_shows)] ends. *)
Inductive outcome :=
| NoTmdbId              (* line 276 *)
| TmdbRequestFailed     (* line 283 *)
| NoSeasons             (* line 292 *)
| NoNewEpisodes         (* line 306, the skip of the change gate *)
| Completed (any_modified : bool)
| UnexpectedError.      (* line 414, reached from the [max()] of line 324 *)

(** Lines 298-303. *)
Definition should_process (last_updated_dt : option datetime)
    (last_air_date : option date) : bool :=
  let last_air_dt := midnight <$> last_air_date in
  let is_rerun :=
    match last_updated_dt, last_air_dt with
    | Some updated, Some aired => datetime_gtb aired updated
    | _, _ => false
    end in
  negb (bool_decide (is_Some last_updated_dt)) || is_rerun.

Record pass := mkPass {
  pass_show : PlexShow;
  pass_log : gmap string datetime;
  pass_outcome : outcome
}.

(** Lines 270-414 for one show: [tmdb_response] is the answer to the request
    of line 280 ([None] for a status other than 200), [fetch] the answers to
    the batch requests, [today] and [now] the clock. *)
Definition process_show (tmdb_response : option TmdbShow)
    (fetch : list Z → option (gmap Z (list TmdbEpisode)))
    (today : date) (now : datetime)
    (show : PlexShow) (update_log : gmap string datetime) : pass :=
  match tmdb_guid show with
  | None => mkPass show update_log NoTmdbId
  | Some tmdb_id =>
    if negb (PyStr.truthy tmdb_id) then mkPass show update_log NoTmdbId else
    match tmdb_response with
    | None => mkPass show update_log TmdbRequestFailed
    | Some tmdb_data =>
      let last_air_date := last_air_date tmdb_data in
      let tmdb_status := PyStr.lower (status tmdb_data) in
      let plex_seasons := seasons show in
      match py_max index plex_seasons with
      | None => mkPass show update_log NoSeasons
      | Some (latest_pos, latest_season) =>
        let latest_index := index latest_season in
        let '(show_o, latest_season) :=
          set_status_label tmdb_data today (show_obj show) tmdb_status
                           latest_season in
        let plex_seasons := <[latest_pos := latest_season]> plex_seasons in
        if negb (should_process (update_log !! tmdb_id) last_air_date) then
          mkPass (mkShow (tmdb_guid show) show_o plex_seasons) update_log
                 NoNewEpisodes
        else
          let season_numbers := season_numbers plex_seasons in
          let all_tmdb_data := fetch_seasons fetch season_numbers in
          match final_season_index all_tmdb_data with
          | None =>
              mkPass (mkShow (tmdb_guid show) show_o plex_seasons) update_log
                     UnexpectedError
          | Some final_season_index =>
              let '(plex_seasons, latest_season_label, any_modified) :=
                season_loop today tmdb_status all_tmdb_data
                            final_season_index latest_index plex_seasons
                            None false in
              let '(show_o, any_modified) :=
                match latest_season_label with
                | Some l =>
                    let '(o, updated) := set_label show_o l in
                    (o, any_modified || updated)
                | None => (remove_all_special_labels show_o, any_modified)
                end in
              let update_log :=
                if any_modified then <[tmdb_id := now]> update_log
                else update_log in
              mkPass (mkShow (tmdb_guid show) show_o plex_seasons) update_log
                     (Completed any_modified)
          end
      end
    end
  end.

(** A later run of the script fetches every object again. *)
Definition refetch (show : PlexShow) : PlexShow :=
  {| tmdb_guid := tmdb_guid show;
     show_obj := fetched (server (show_obj show));
     seasons :=
       (fun s => with_obj s (fetched (server (season_obj s))))
         <$> seasons show |}.

(** ** Observations on a show *)

(** The Special labels the server holds for an object. *)
Definition specials (o : PlexObj) : gset string := server o ∩ SPECIAL_LABELS.

Definition season_specials (s : PlexSeason)
    : gset string * gmap Z (gset string) :=
  (specials (season_obj s),
   (fun X : gset string => X ∩ SPECIAL_LABELS) <$> season_episodes s).

(** The Special labels of the show, of each season and of each episode. *)
Definition special_view (show : PlexShow)
    : gset string * list (gset string * gmap Z (gset string)) :=
  (specials (show_obj show), season_specials <$> seasons show).

(** The [season_label] that [process_season] computes for a season of index
    [i]; [None] also when the turn ends at one of its two [continue]s. *)
Definition computed_season_label (today : date) (tmdb_status : string)
    (all_tmdb_data : gmap Z (list TmdbEpisode)) (final_season_index : Z)
    (i : Z) : option string :=
  match all_tmdb_data !! i with
  | None => None
  | Some tmdb_episodes =>
      match py_max ep_number (aired_episodes today tmdb_episodes) with
      | None => None
      | Some (_, last_ep) =>
          season_candidate_label i final_season_index tmdb_status last_ep
      end
  end.


(** ** A library of two seasons, used to run the pass *)

Module Ex.

Definition today : date := mkdate 2024 3 4.          (* a Monday *)
Definition now1 : datetime := mkdatetime today 43200000000.
Definition now2 : datetime := mkdatetime today 46800000000.

Definition ep (n : Z) (d : date) (ty : string) : TmdbEpisode :=
  mkEp (Some d) n ty.

Definition tmdb_season1 : list TmdbEpisode :=
  [ ep 1 (mkdate 2023 1 1) "standard"; ep 2 (mkdate 2023 1 8) "finale" ].

Definition tmdb_season2 : list TmdbEpisode :=
  [ ep 1 (mkdate 2024 2 5) "standard"; ep 2 (mkdate 2024 2 12) "standard";
    ep 3 (mkdate 2024 2 19) "standard"; ep 4 (mkdate 2024 2 26) "standard";
    ep 5 (mkdate 2024 3 8) "standard" ].

Definition fetch (batch : list Z) : option (gmap Z (list TmdbEpisode)) :=
  Some (<[1 := tmdb_season1]> (<[2 := tmdb_season2]> ∅)).

Definition next (d : date) (s e : Z) : option NextEpisode :=
  Some (mkNext (Some d) (Some s) (Some e)).

(** Next episode: season 2, episode 5, on Friday 2024-03-08. *)
Definition tmdb : TmdbShow :=
  mkTmdb "Returning Series" (Some (mkdate 2024 2 26))
         (next (mkdate 2024 3 8) 2 5).

Definition unlabelled (ns : list Z) : gmap Z (gset string) :=
  list_to_map ((fun n => (n, ∅)) <$> ns).

Definition plex_seasons : list PlexSeason :=
  [ mkSeason 1 (fetched ∅) (unlabelled [1; 2]);
    mkSeason 2 (fetched ∅) (unlabelled [1; 2; 3; 4]) ].

(** The show carrying [ls], every season and episode without a label. *)
Definition show_with (ls : gset string) : PlexShow :=
  mkShow (Some "42") (fetched ls) plex_seasons.

Definition show0 : PlexShow := show_with ∅.

(** One run of the script on this show. *)
Definition run (data : TmdbShow) (now : datetime) (show : PlexShow)
    (update_log : gmap string datetime) : pass :=
  process_show (Some data) fetch today now show update_log.

Definition has (l : string) (o : PlexObj) : bool :=
  bool_decide (l ∈ server o).

Definition latest (show : PlexShow) : PlexObj :=
  default (fetched ∅) (season_obj <$> seasons show !! 1%nat).

(** Three runs in a row on the same TMDb data, the second and the third on
    what the run before left, fetched again. *)
Definition first_run : pass := run tmdb now1 show0 ∅.

Definition second_run : pass :=
  run tmdb now2 (refetch (pass_show first_run)) (pass_log first_run).

Definition third_run : pass :=
  run tmdb now2 (refetch (pass_show second_run)) (pass_log second_run).

(** The same series with another next episode, or none. *)
Definition tmdb_next (next_ep : option NextEpisode) : TmdbShow :=
  mkTmdb "Returning Series" (Some (mkdate 2024 2 26)) next_ep.






End Ex.

(** * The rest of the script *)

(** ** [str.split(sep)] for a non-empty separator *)

Module PySplit.

(** [skip] counts the characters of a separator found at an earlier position
    that are still to be passed over; [piece] is the piece being read. *)
Fixpoint split_from (sep : string) (skip : nat) (piece : string) (s : string)
    : list string :=
  match s with
  | EmptyString => [piece]
  | String c s' =>
      match skip with
      | S skip' => split_from sep skip' piece s'
      | O =>
          if String.prefix sep s
          then piece :: split_from sep (String.length sep - 1) "" s'
          else split_from sep 0 (piece +:+ String c "") s'
      end
  end.

(** [s.split(sep)] *)
Definition split (s sep : string) : list string := split_from sep 0 "" s.

End PySplit.

(** ** [get_tmdb_id] *)

(** [guids] are the strings [guid_str] of [show.guids]. An exception inside
    the [try], as the [IndexError] of a missing piece, ends in [return
    None]. *)
Fixpoint get_tmdb_id (guids : list string) : option string :=
  match guids with
  | [] => None
  | guid_str :: rest =>
      if PyStr.startswith guid_str "tmdb://" then
        match PySplit.split guid_str "tmdb://" !! 1%nat with
        | Some tail => head (PySplit.split tail "?")
        | None => None
        end
      else get_tmdb_id rest
  end.

(** ** [get_filtered_shows] *)

(** The command line: [args.collection], [args.tmdb], [args.title] and
    [args.label]. *)
Record Args := mkArgs {
  arg_collection : option string;
  arg_tmdb : option string;
  arg_title : option string;
  arg_label : option string
}.

(** Truthiness of an optional string argument. *)
Definition given (a : option string) : option string :=
  match a with
  | Some s => if PyStr.truthy s then Some s else None
  | None => None
  end.

(** What [tv_library] answers: [collections()] ([None] when it raises), each
    collection with its title and its [items()]; [search()]; and
    [search(title=...)]. *)
Record Library := mkLibrary {
  lib_collections : option (list (string * list PlexShow));
  lib_search : list PlexShow;
  lib_search_title : string → list PlexShow
}.

(** The JSON of the TMDb lookup of line 73: its ["name"] and
    ["original_name"]. *)
Record TmdbName := mkName {
  tmdb_name : option string;
  tmdb_original_name : option string
}.

(** Lines 54-55: [{c.title: c for c in collections}]. *)
Definition collection_dict (collections : list (string * list PlexShow))
    : gmap string (list PlexShow) :=
  foldl (fun d c => <[c.1 := c.2]> d) ∅ collections.

(** [tmdb_lookup] is the answer to the request of line 73, [None] for a
    status other than 200. *)
Definition get_filtered_shows (args : Args) (tv_library : Library)
    (tmdb_lookup : option TmdbName) : list PlexShow :=
  let selected :=
    match given (arg_collection args) with
    | Some collection =>
        match lib_collections tv_library with
        | None => None
        | Some collections =>
            collection_dict collections !! collection
        end
    | None => Some (lib_search tv_library)
    end in
  match selected with
  | None => []
  | Some shows =>
      let selected :=
        match given (arg_tmdb args) with
        | Some _ =>
            match tmdb_lookup with
            | None => None
            | Some data =>
                match given (tmdb_name data),
                      given (tmdb_original_name data) with
                | Some tmdb_title, _ | None, Some tmdb_title =>
                    Some (lib_search_title tv_library tmdb_title)
                | None, None => None
                end
            end
        | None => Some shows
        end in
      match selected with
      | None => []
      | Some shows =>
          let shows :=
            match given (arg_title args) with
            | Some title => lib_search_title tv_library title
            | None => shows
            end in
          match given (arg_label args) with
          | Some label =>
              List.filter
                (fun show => bool_decide (label ∈ labels (show_obj show)))
                shows
          | None => shows
          end
      end
  end.

(** ** Clear mode *)

(** The loops of lines 106-108, 112-114 and 118-120 after the reload:
    remove every label of the object that [managed] selects. *)
Definition clear_labels (managed : string → bool) (obj : PlexObj) : PlexObj :=
  let obj := reload obj in
  set_fold (fun label o => if managed label then removeLabel label o else o)
           obj (labels obj).

Definition in_special (tag : string) : bool :=
  bool_decide (tag ∈ SPECIAL_LABELS).

Definition in_special_or_status (tag : string) : bool :=
  bool_decide (tag ∈ SPECIAL_LABELS) || bool_decide (tag ∈ STATUS_LABELS).

(** Lines 110-121 for one season. *)
Definition clear_season (season : PlexSeason) : PlexSeason :=
  {| index := index season;
     season_obj := clear_labels in_special (season_obj season);
     season_episodes :=
       (fun stored => server (clear_labels in_special (fetched stored)))
         <$> season_episodes season |}.

(** Lines 105-121 for one show. *)
Definition clear_show (show : PlexShow) : PlexShow :=
  {| tmdb_guid := tmdb_guid show;
     show_obj := clear_labels in_special_or_status (show_obj show);
     seasons := clear_season <$> seasons show |}.

(** The update log file: [None] when [LOG_PATH] does not exist. Lines
    102-126: the shows after the run and the file after it. *)
Definition clear_mode (shows_to_clear : list PlexShow)
    (log_file : option (gmap string datetime))
    : list PlexShow * option (gmap string datetime) :=
  (clear_show <$> shows_to_clear, None).

(** ** The whole run *)

(** Lines 129-133. *)
Definition load_update_log (log_file : option (gmap string datetime))
    : gmap string datetime :=
  default ∅ log_file.

(** One show of [all_shows] with what the outside answers while it is
    processed: the TMDb requests and the clock at line 410. *)
Record job := mkJob {
  job_show : PlexShow;
  job_response : option TmdbShow;
  job_fetch : list Z → option (gmap Z (list TmdbEpisode));
  job_now : datetime
}.

(** Lines 269-414. *)
Fixpoint main_loop (today : date) (all_shows : list job)
    (update_log : gmap string datetime)
    : list pass * gmap string datetime :=
  match all_shows with
  | [] => ([], update_log)
  | j :: rest =>
      let p := process_show (job_response j) (job_fetch j) today (job_now j)
                            (job_show j) update_log in
      let '(passes, update_log) := main_loop today rest (pass_log p) in
      (p :: passes, update_log)
  end.

(** Lines 101-126 when [args.clear], lines 129-133 and 266-417 otherwise: the
    shows and the update log file after the run. *)
Definition run_script (clear : bool) (today : date) (all_shows : list job)
    (log_file : option (gmap string datetime))
    : list PlexShow * option (gmap string datetime) :=
  if clear then clear_mode (job_show <$> all_shows) log_file
  else
    let '(passes, update_log) :=
      main_loop today all_shows (load_update_log log_file) in
    (pass_show <$> passes, Some update_log).

(** ** More observations *)

(** The labels the script writes: the Special ones, the ones with an
    Upcoming prefix and the ones that start with ["Status: "]. *)
Definition managed (l : string) : bool :=
  bool_decide (l ∈ SPECIAL_LABELS) || is_upcoming l
  || PyStr.startswith l "Status: ".

Definition unmanaged (X : gset string) : gset string :=
  filter (fun l => managed l = false) X.

(** The show without the labels the script writes: its TMDb id, its other
    labels, and for each season its index, its other labels and those of
    each of its episodes. *)
Definition unmanaged_view (show : PlexShow)
    : option string * gset string
      * list (Z * gset string * gmap Z (gset string)) :=
  (tmdb_guid show, unmanaged (server (show_obj show)),
   (fun s => (index s, unmanaged (server (season_obj s)),
              unmanaged <$> season_episodes s)) <$> seasons show).

(** [d.get(k)] on the ordered [dict]. *)
Fixpoint dict_get (k : Z) (d : list (Z * string)) : option string :=
  match d with
  | [] => None
  | (k', v) :: d' => if k =? k' then Some v else dict_get k d'
  end.

(** An aired episode, as lines 372-379 test it. *)
Definition has_aired (today : date) (ep : TmdbEpisode) : bool :=
  match ep_air_date ep with
  | Some ep_date => negb (date_gtb ep_date today)
  | None => false
  end.


(** [c in s] for a character. *)
Fixpoint has_char (c : ascii) (s : string) : bool :=
  match s with
  | EmptyString => false
  | String c' s' => Ascii.eqb c c' || has_char c s'
  end.

(** * Properties *)

(** ** The loops over label sets *)

Section LabelLoops.

Implicit Types (o : PlexObj) (X : gset string) (P : string → bool).

Lemma remove_loop P X o :
  let o' := set_fold (fun l o => if P l then removeLabel l o else o) o X in
  labels o' = labels o
  ∧ ∀ x, x ∈ server o' ↔ x ∈ server o ∧ ¬ (x ∈ X ∧ P x = true).
Proof.
  cbv zeta.
  apply (set_fold_ind_L
           (fun r Y => labels r = labels o
                       ∧ ∀ x, x ∈ server r
                              ↔ x ∈ server o ∧ ¬ (x ∈ Y ∧ P x = true))).
  - split; [done|]. intros x. set_solver.
  - intros y Y r Hy [Hl Hs]. destruct (P y) eqn:HP.
    + split; [done|]. intros x. cbn. rewrite elem_of_difference, Hs.
      set_unfold. split.
      * intros [[H1 H2] H3]. split; [done|]. intros [[->|H4] H5]; tauto.
      * intros [H1 H2]. split; [split; [done|]|]; [tauto|].
        intros ->. tauto.
    + split; [done|]. intros x. rewrite Hs. set_unfold. split.
      * intros [H1 H2]. split; [done|].
        intros [[->|H4] H5]; [congruence|tauto].
      * intros [H1 H2]. split; [done|]. tauto.
Qed.

Lemma remove_loop_flag P X o :
  let r := set_fold (fun l '(o, m) =>
                       if P l then (removeLabel l o, true) else (o, m))
                    (o, false) X in
  labels r.1 = labels o
  ∧ (∀ x, x ∈ server r.1 ↔ x ∈ server o ∧ ¬ (x ∈ X ∧ P x = true))
  ∧ (r.2 = true ↔ ∃ x, x ∈ X ∧ P x = true).
Proof.
  cbv zeta.
  apply (set_fold_ind_L
           (fun (r : PlexObj * bool) Y =>
              labels r.1 = labels o
              ∧ (∀ x, x ∈ server r.1
                      ↔ x ∈ server o ∧ ¬ (x ∈ Y ∧ P x = true))
              ∧ (r.2 = true ↔ ∃ x, x ∈ Y ∧ P x = true))).
  - split; [done|]. split; [intros x; set_solver|]. cbn. split; [done|].
    intros [x [Hx _]]. set_solver.
  - intros y Y [r m] Hy (Hl & Hs & Hm). cbn in *.
    destruct (P y) eqn:HP; cbn.
    + split; [done|]. split.
      * intros x. rewrite elem_of_difference, Hs. set_unfold. split.
        -- intros [[H1 H2] H3]. split; [done|]. intros [[->|H4] H5]; tauto.
        -- intros [H1 H2]. split; [split; [done|]|]; [tauto|].
           intros ->. tauto.
      * split; [|done]. intros _. exists y. set_solver.
    + split; [done|]. split.
      * intros x. rewrite Hs. set_unfold. split.
        -- intros [H1 H2]. split; [done|].
           intros [[->|H4] H5]; [congruence|tauto].
        -- intros [H1 H2]. split; [done|]. tauto.
      * rewrite Hm. split.
        -- intros [x [H1 H2]]. exists x. set_solver.
        -- intros [x [H1 H2]]. set_unfold. destruct H1 as [->|H1];
             [congruence|]. eauto.
Qed.

Lemma add_loop_flag (existing : gset string) X o m0 :
  let r := set_fold (fun label '(o, m) =>
                       if bool_decide (label ∉ existing)
                       then (addLabel label o, true) else (o, m))
                    (o, m0) X in
  labels r.1 = labels o
  ∧ (∀ x, x ∈ server r.1 ↔ x ∈ server o ∨ (x ∈ X ∧ x ∉ existing))
  ∧ (r.2 = true ↔ m0 = true ∨ ∃ x, x ∈ X ∧ x ∉ existing).
Proof.
  cbv zeta.
  apply (set_fold_ind_L
           (fun (r : PlexObj * bool) Y =>
              labels r.1 = labels o
              ∧ (∀ x, x ∈ server r.1
                      ↔ x ∈ server o ∨ (x ∈ Y ∧ x ∉ existing))
              ∧ (r.2 = true ↔ m0 = true ∨ ∃ x, x ∈ Y ∧ x ∉ existing))).
  - cbn. split; [done|]. split; [intros x; set_solver|]. split; [tauto|].
    intros [H|[x [H _]]]; [done|set_solver].
  - intros y Y [r m] Hy (Hl & Hs & Hm). cbn [fst snd] in *.
    case_bool_decide as Hin; cbn [fst snd labels server addLabel].
    + split; [done|]. split.
      * intros x. rewrite elem_of_union, elem_of_singleton, Hs. set_unfold.
        split; [intros [->|[H|H]]; tauto|].
        intros [H|[[->|H] H']]; tauto.
      * split; [|done]. intros _. right. exists y. set_solver.
    + split; [done|]. split.
      * intros x. rewrite Hs. set_unfold. split; [tauto|].
        intros [H|[[->|H] H']]; tauto.
      * rewrite Hm. split.
        -- intros [H|[x [H1 H2]]]; [tauto|]. right. exists x. set_solver.
        -- intros [H|[x [H1 H2]]]; [tauto|]. set_unfold.
           destruct H1 as [->|H1]; [tauto|]. right. eauto.
Qed.

End LabelLoops.

(** ** What each helper leaves on the server *)

Section Primitives.

Implicit Types (o : PlexObj) (X : gset string).

Lemma set_label_spec o label :
  let r := set_label o label in
  labels r.1 = server o
  ∧ (∀ x, x ∈ server r.1
          ↔ (x ∈ server o ∧ (x ∉ SPECIAL_LABELS ∨ x = label))
            ∨ (x = label ∧ PyStr.truthy label = true))
  ∧ (r.2 = true
     ↔ (∃ x, x ∈ server o ∧ x ∈ SPECIAL_LABELS ∧ x ≠ label)
       ∨ (PyStr.truthy label = true ∧ label ∉ server o)).
Proof.
  unfold set_label. cbn [reload labels server].
  pose proof (remove_loop_flag (fun l => bool_decide (l ≠ label))
                (server o ∩ SPECIAL_LABELS)
                {| labels := server o; server := server o |}) as H.
  cbv zeta beta in H.
  destruct (set_fold _ _ _) as [o' m]. cbn [fst snd labels server] in *.
  destruct H as (Hl & Hs & Hm).
  assert (Hex : (∃ x, x ∈ server o ∩ SPECIAL_LABELS
                      ∧ bool_decide (x ≠ label) = true)
                ↔ ∃ x, x ∈ server o ∧ x ∈ SPECIAL_LABELS ∧ x ≠ label).
  { split; intros [x Hx]; exists x; rewrite bool_decide_eq_true in *;
      set_solver. }
  assert (Hsx : ∀ x, x ∈ server o'
                     ↔ x ∈ server o ∧ (x ∉ SPECIAL_LABELS ∨ x = label)).
  { intros x. rewrite Hs, bool_decide_eq_true. set_unfold.
    destruct (decide (x = label)); tauto. }
  destruct (PyStr.truthy label) eqn:Ht; cbn [andb].
  - case_bool_decide as Hin; cbn [fst snd server addLabel].
    + split; [done|]. split.
      * intros x. rewrite elem_of_union, elem_of_singleton, Hsx. tauto.
      * split; [|done]. intros _. right. done.
    + split; [done|]. split.
      * intros x. rewrite Hsx. split; [tauto|].
        intros [H|[-> _]]; [done|]. split; [|by right].
        destruct (decide (label ∈ server o)); tauto.
      * rewrite Hm, Hex. split; [tauto|]. intros [H|[_ H]]; [done|].
        destruct (decide (label ∈ server o)); tauto.
  - split; [done|]. split.
    + intros x. rewrite Hsx. split; [tauto|]. intros [H|[_ H]]; done.
    + rewrite Hm, Hex. split; [tauto|]. intros [H|[H _]]; done.
Qed.

Lemma remove_all_special_labels_spec o :
  labels (remove_all_special_labels o) = server o
  ∧ server (remove_all_special_labels o) = server o ∖ SPECIAL_LABELS.
Proof.
  unfold remove_all_special_labels. cbn [reload labels server].
  pose proof (remove_loop (fun l => bool_decide (l ∈ SPECIAL_LABELS))
                (server o) {| labels := server o; server := server o |})
    as [Hl Hs].
  cbn [labels server] in *. split; [done|].
  apply set_eq. intros x. rewrite Hs, bool_decide_eq_true. set_solver.
Qed.

Lemma set_episode_special_labels_spec o new_labels :
  let r := set_episode_special_labels o new_labels in
  (∀ x, x ∈ server r.1
        ↔ (x ∈ server o ∧ (x ∉ SPECIAL_LABELS ∨ x ∈ new_labels))
          ∨ x ∈ new_labels)
  ∧ (r.2 = true
     ↔ (∃ x, x ∈ server o ∧ x ∈ SPECIAL_LABELS ∧ x ∉ new_labels)
       ∨ (∃ x, x ∈ new_labels ∧ x ∉ server o)).
Proof.
  unfold set_episode_special_labels. cbn [reload labels server].
  pose proof (remove_loop_flag (fun l => bool_decide (l ∉ new_labels))
                (server o ∩ SPECIAL_LABELS)
                {| labels := server o; server := server o |}) as H.
  cbv zeta beta in H.
  destruct (set_fold _ _ (server o ∩ SPECIAL_LABELS)) as [o' m].
  cbn [fst snd labels server] in *. destruct H as (Hl & Hs & Hm).
  pose proof (add_loop_flag (server o) new_labels o' m) as H.
  cbv zeta in H. destruct H as (Hl' & Hs' & Hm'). split.
  - intros x. rewrite Hs', Hs, bool_decide_eq_true. set_unfold.
    destruct (decide (x ∈ new_labels)); destruct (decide (x ∈ server o));
      tauto.
  - rewrite Hm', Hm. split.
    + intros [[x [H1 H2]]|H]; [left|by right].
      exists x. rewrite bool_decide_eq_true in H2. set_solver.
    + intros [[x H]|H]; [left|by right].
      exists x. rewrite bool_decide_eq_true. set_solver.
Qed.

Lemma replace_stale_spec (stale : string → bool) label o :
  labels (replace_stale stale label o) = server o
  ∧ ∀ x, x ∈ server (replace_stale stale label o)
         ↔ (x ∈ server o ∧ stale x = false)
           ∨ (x = label ∧ label ∉ server o).
Proof.
  unfold replace_stale. cbn [reload labels server].
  pose proof (remove_loop stale (server o)
                {| labels := server o; server := server o |}) as [Hl Hs].
  cbn [labels server] in *.
  case_bool_decide as Hin; cbn [labels server addLabel].
  - split; [done|]. intros x.
    rewrite elem_of_union, elem_of_singleton, Hs.
    destruct (stale x); split; intros; intuition congruence.
  - split; [done|]. intros x. rewrite Hs.
    destruct (stale x); split; intros; intuition congruence.
Qed.

Lemma apply_status_spec tmdb_status o :
  labels (apply_status tmdb_status o) = labels o
  ∧ ∀ x, x ∈ server (apply_status tmdb_status o)
         ↔ (x ∈ server o ∧ ¬ (x ∈ labels o ∧ x ∈ STATUS_LABELS))
           ∨ (PyStr.truthy tmdb_status = true
              ∧ x = "Status: " +:+ PyStr.title tmdb_status
              ∧ x ∉ labels o).
Proof.
  unfold apply_status.
  pose proof (remove_loop (fun _ => true) (labels o ∩ STATUS_LABELS) o)
    as [Hl Hs].
  cbv beta in Hs, Hl.
  destruct (PyStr.truthy tmdb_status).
  - case_bool_decide as Hin; cbn [labels server addLabel].
    + split; [done|]. intros x.
      rewrite elem_of_union, elem_of_singleton, Hs. set_unfold.
      split; [|intros [H|(_ & -> & H)]; tauto].
      intros [->|[H1 H2]]; [right; done|left; tauto].
    + split; [done|]. intros x. rewrite Hs. set_unfold.
      split; [tauto|]. intros [H|(_ & -> & H)]; [tauto|]. done.
  - split; [done|]. intros x. rewrite Hs. set_unfold.
    split; [tauto|]. intros [H|(H & _)]; [tauto|done].
Qed.

End Primitives.

(** ** The three vocabularies do not overlap *)

Section Vocabularies.

Lemma elem_of_SPECIAL_LABELS x :
  x ∈ SPECIAL_LABELS
  ↔ x = "Pilot" ∨ x = "Season Premiere" ∨ x = "Season Finale"
    ∨ x = "Series Finale" ∨ x = "Mid-Season Finale".
Proof. unfold SPECIAL_LABELS. set_unfold. tauto. Qed.

Lemma elem_of_STATUS_LABELS x :
  x ∈ STATUS_LABELS
  ↔ x = "Status: Ended" ∨ x = "Status: Canceled"
    ∨ x = "Status: Returning Series".
Proof. unfold STATUS_LABELS. set_unfold. tauto. Qed.

Lemma special_not_upcoming x :
  x ∈ SPECIAL_LABELS → is_upcoming x = false ∧ is_returning x = false.
Proof.
  rewrite elem_of_SPECIAL_LABELS.
  intros [-> | [-> | [-> | [-> | ->]]]]; split; reflexivity.
Qed.

Lemma special_not_status x : x ∈ SPECIAL_LABELS → x ∉ STATUS_LABELS.
Proof.
  rewrite elem_of_SPECIAL_LABELS, elem_of_STATUS_LABELS.
  intros [-> | [-> | [-> | [-> | ->]]]] [H|[H|H]]; discriminate H.
Qed.

Lemma status_label_not_special s : "Status: " +:+ s ∉ SPECIAL_LABELS.
Proof.
  rewrite elem_of_SPECIAL_LABELS.
  intros [H|[H|[H|[H|H]]]]; discriminate H.
Qed.

Lemma status_label_not_upcoming s : is_upcoming ("Status: " +:+ s) = false.
Proof. reflexivity. Qed.

Lemma upcoming_not_special x : is_upcoming x = true → x ∉ SPECIAL_LABELS.
Proof.
  intros H Hx. apply special_not_upcoming in Hx as [Hx _]. congruence.
Qed.

Lemma returning_not_special x : is_returning x = true → x ∉ SPECIAL_LABELS.
Proof.
  intros H Hx. apply special_not_upcoming in Hx as [_ Hx]. congruence.
Qed.

Lemma status_not_upcoming x : x ∈ STATUS_LABELS → is_upcoming x = false.
Proof.
  rewrite elem_of_STATUS_LABELS. intros [-> | [-> | ->]]; reflexivity.
Qed.


Lemma startswith_append p s : PyStr.startswith (p +:+ s) p = true.
Proof.
  unfold PyStr.startswith. induction p as [|a p IH].
  - by destruct s.
  - change (match ascii_dec a a with
            | left _ => String.prefix p (p +:+ s)
            | right _ => false
            end = true).
    destruct (ascii_dec a a); [exact IH|congruence].
Qed.

Lemma new_episode_is_upcoming s : is_upcoming ("New Episode " +:+ s) = true.
Proof.
  assert (H : PyStr.startswith ("New Episode " +:+ s) "New Episode" = true)
    by exact (startswith_append "New Episode" (" " +:+ s)).
  unfold is_upcoming. by rewrite H.
Qed.

Lemma new_season_is_upcoming s : is_upcoming ("New Season " +:+ s) = true.
Proof.
  assert (H : PyStr.startswith ("New Season " +:+ s) "New Season" = true)
    by exact (startswith_append "New Season" (" " +:+ s)).
  unfold is_upcoming. rewrite H. by rewrite orb_true_r.
Qed.

Lemma returning_is_returning s :
  is_returning ("Returning " +:+ s) = true
  ∧ is_upcoming ("Returning " +:+ s) = true.
Proof.
  assert (H : PyStr.startswith ("Returning " +:+ s) "Returning" = true)
    by exact (startswith_append "Returning" (" " +:+ s)).
  unfold is_upcoming, is_returning. rewrite H. by rewrite orb_true_r.
Qed.

Lemma upcoming_label_is_upcoming next_ep latest_index today :
  match upcoming_label next_ep latest_index today with
  | NewEpisode l | NewSeason l =>
      is_upcoming l = true ∧ (l ∉ SPECIAL_LABELS) ∧ (l ∉ STATUS_LABELS)
  | Returning l =>
      is_returning l = true ∧ (l ∉ SPECIAL_LABELS) ∧ (l ∉ STATUS_LABELS)
  | NoUpcoming => True
  end.
Proof.
  unfold upcoming_label.
  destruct next_ep as [ne|]; [|done].
  destruct (air_date ne); [|done].
  destruct (_ && _); [|done]. cbv zeta.
  assert (Hst : ∀ x, is_upcoming x = true → x ∉ STATUS_LABELS).
  { intros x H Hx. apply status_not_upcoming in Hx. congruence. }
  destruct (_ <=? DAYS_TO_CONSIDER).
  - destruct (_ && _);
      (split; [|split; [apply upcoming_not_special|apply Hst]]);
      first [apply new_episode_is_upcoming|apply new_season_is_upcoming].
  - destruct (_ <=? RETURNING_DAYS); [|done].
    split; [apply returning_is_returning|].
    split; [apply upcoming_not_special|apply Hst];
      apply returning_is_returning.
Qed.

End Vocabularies.

(** ** The classifiers *)

Section Classifiers.

(** C7. Window boundaries of the upcoming label, for a next-episode payload
    with an air date and non-zero season and episode numbers: at
    [days_until = DAYS_TO_CONSIDER] the label is a "New Episode"/"New
    Season" one; at [DAYS_TO_CONSIDER + 1], when that is at most
    [RETURNING_DAYS], it is "Returning"; at [RETURNING_DAYS + 1] there is
    none; a negative [days_until] still gives the "New" label, as does
    every value up to [DAYS_TO_CONSIDER]. *)
Theorem upcoming_window_boundaries (air today : date) (sn en latest : Z) :
  sn ≠ 0 → en ≠ 0 →
  let next_ep := Some (mkNext (Some air) (Some sn) (Some en)) in
  let days_until := days_between air today in
  let shown := formatted_date air days_until in
  let new_label :=
    if (sn =? latest) && negb (en =? 1)
    then NewEpisode ("New Episode " +:+ shown)
    else NewSeason ("New Season " +:+ shown) in
  (days_until = DAYS_TO_CONSIDER →
     upcoming_label next_ep latest today = new_label)
  ∧ (days_until = DAYS_TO_CONSIDER + 1 → days_until ≤ RETURNING_DAYS →
     upcoming_label next_ep latest today
     = Returning ("Returning " +:+ shown))
  ∧ (days_until = RETURNING_DAYS + 1 →
     upcoming_label next_ep latest today = NoUpcoming)
  ∧ (days_until < 0 → upcoming_label next_ep latest today = new_label)
  ∧ (days_until ≤ DAYS_TO_CONSIDER →
     upcoming_label next_ep latest today = new_label).
Proof.
  intros Hsn Hen. cbv zeta. unfold upcoming_label.
  cbn [air_date season_number episode_number truthy_int default
       from_option].
  assert (Hs : negb (sn =? 0) = true) by (apply negb_true_iff; lia).
  assert (He : negb (en =? 0) = true) by (apply negb_true_iff; lia).
  rewrite Hs, He. cbn [andb]. cbv zeta.
  generalize (days_between air today) as du. intros du.
  unfold DAYS_TO_CONSIDER, RETURNING_DAYS.
  repeat split; intros.
  - replace (du <=? 7) with true by lia. done.
  - replace (du <=? 7) with false by lia.
    replace (du <=? 28) with true by lia. done.
  - replace (du <=? 7) with false by lia.
    replace (du <=? 28) with false by lia. done.
  - replace (du <=? 7) with true by lia. done.
  - replace (du <=? 7) with true by lia. done.
Qed.

Lemma upcoming_window_boundaries_witness :
  upcoming_label (Ex.next (mkdate 2024 3 11) 2 5) 2 Ex.today
  = NewEpisode "New Episode Monday"
  ∧ upcoming_label (Ex.next (mkdate 2024 3 12) 2 5) 2 Ex.today
    = Returning "Returning 03/12"
  ∧ upcoming_label (Ex.next (mkdate 2024 4 2) 2 5) 2 Ex.today = NoUpcoming
  ∧ upcoming_label (Ex.next (mkdate 2024 3 1) 3 1) 2 Ex.today
    = NewSeason "New Season Friday".
Proof.
  split; [|split; [|split]].
  - destruct (upcoming_window_boundaries (mkdate 2024 3 11) Ex.today 2 5 2)
      as (H & _); [lia|lia|]. exact (H eq_refl).
  - destruct (upcoming_window_boundaries (mkdate 2024 3 12) Ex.today 2 5 2)
      as (_ & H & _); [lia|lia|].
    refine (H eq_refl _). vm_compute. discriminate.
  - destruct (upcoming_window_boundaries (mkdate 2024 4 2) Ex.today 2 5 2)
      as (_ & _ & H & _); [lia|lia|]. exact (H eq_refl).
  - destruct (upcoming_window_boundaries (mkdate 2024 3 1) Ex.today 3 1 2)
      as (_ & _ & _ & H & _); [lia|lia|]. exact (H eq_refl).
Defined.

(** C10. A next-episode payload whose season number or episode number is 0
    gives no upcoming label, exactly as an absent payload does, and
    [set_status_label] then does what it does without a payload. *)
Theorem zero_is_missing_next_episode (tmdb_data : TmdbShow)
    (ne : NextEpisode) (today : date) (show : PlexObj)
    (tmdb_status : string) (latest_season : PlexSeason) :
  next_episode_to_air tmdb_data = Some ne →
  season_number ne = Some 0 ∨ episode_number ne = Some 0 →
  upcoming_label (Some ne) (index latest_season) today = NoUpcoming
  ∧ upcoming_label None (index latest_season) today = NoUpcoming
  ∧ set_status_label tmdb_data today show tmdb_status latest_season
    = set_status_label
        (mkTmdb (status tmdb_data) (last_air_date tmdb_data) None)
        today show tmdb_status latest_season.
Proof.
  intros Hne Hzero.
  assert (H : upcoming_label (Some ne) (index latest_season) today
              = NoUpcoming).
  { unfold upcoming_label. destruct (air_date ne); [|done].
    destruct Hzero as [-> | ->]; cbn [truthy_int]; [done|].
    by rewrite andb_false_r. }
  split; [done|]. split; [done|].
  unfold set_status_label. cbn [next_episode_to_air]. by rewrite Hne, H.
Qed.

Lemma zero_is_missing_next_episode_witness :
  upcoming_label (Ex.next (mkdate 2024 3 8) 0 5) 2 Ex.today = NoUpcoming
  ∧ upcoming_label (Ex.next (mkdate 2024 3 8) 2 0) 2 Ex.today = NoUpcoming.
Proof.
  split.
  - exact (proj1 (zero_is_missing_next_episode
                    (mkTmdb "ended" None (Ex.next (mkdate 2024 3 8) 0 5))
                    (mkNext (Some (mkdate 2024 3 8)) (Some 0) (Some 5))
                    Ex.today (fetched ∅) "ended"
                    (mkSeason 2 (fetched ∅) ∅)
                    eq_refl (or_introl eq_refl))).
  - exact (proj1 (zero_is_missing_next_episode
                    (mkTmdb "ended" None (Ex.next (mkdate 2024 3 8) 2 0))
                    (mkNext (Some (mkdate 2024 3 8)) (Some 2) (Some 0))
                    Ex.today (fetched ∅) "ended"
                    (mkSeason 2 (fetched ∅) ∅)
                    eq_refl (or_intror eq_refl))).
Defined.

Lemma foldl_max_spec (ks : list Z) (k : Z) :
  (foldl Z.max k ks = k ∨ foldl Z.max k ks ∈ ks)
  ∧ k ≤ foldl Z.max k ks
  ∧ ∀ x, x ∈ ks → x ≤ foldl Z.max k ks.
Proof.
  revert k. induction ks as [|y ks IH]; intros k; cbn [foldl].
  - split; [by left|]. split; [lia|]. intros x Hx. by apply elem_of_nil in Hx.
  - destruct (IH (Z.max k y)) as (Hin & Hle & Hall). split; [|split].
    + destruct Hin as [Heq|Hin]; [|right; by apply elem_of_cons; right].
      rewrite Heq. destruct (Z.max_spec k y) as [[_ ->]|[_ ->]];
        [right; by apply elem_of_cons; left|by left].
    + lia.
    + intros x [->|Hx]%elem_of_cons; [lia|by apply Hall].
Qed.

(** [final_season_index] is the largest season number of the batch. *)
Lemma final_season_index_max (all_tmdb_data : gmap Z (list TmdbEpisode))
    (final : Z) :
  final_season_index all_tmdb_data = Some final →
  final ∈ dom all_tmdb_data ∧ ∀ k, k ∈ dom all_tmdb_data → k ≤ final.
Proof.
  unfold final_season_index.
  destruct (elements (dom all_tmdb_data)) as [|k ks] eqn:E; [done|].
  intros [= <-]. destruct (foldl_max_spec ks k) as (Hin & Hle & Hall).
  assert (Hel : ∀ x, x ∈ dom all_tmdb_data ↔ x ∈ k :: ks).
  { intros x. by rewrite <- E, elem_of_elements. }
  split.
  - apply Hel, elem_of_cons. destruct Hin as [->|Hin]; [by left|by right].
  - intros x [->|Hx]%Hel%elem_of_cons; [done|by apply Hall].
Qed.

Lemma terminal_status_spec tmdb_status :
  terminal_status tmdb_status = true
  ↔ tmdb_status = "ended" ∨ tmdb_status = "canceled".
Proof.
  unfold terminal_status. rewrite orb_true_iff, !String.eqb_eq. done.
Qed.

(** C8. For a unit of episode type "finale" whose episode number is not 1,
    the label is "Series Finale" exactly when the season index is the
    largest season number of the fetched batch and the status is "ended"
    or "canceled", and "Season Finale" otherwise; in a season that is
    not the largest it is "Season Finale" whatever the status. This holds
    for the season label and for the episode label. *)
Theorem season_vs_series_finale
    (all_tmdb_data : gmap Z (list TmdbEpisode)) (final season_index : Z)
    (tmdb_status : string) (unit : TmdbEpisode) :
  final_season_index all_tmdb_data = Some final →
  PyStr.lower (ep_type unit) = "finale" →
  ep_number unit ≠ 1 →
  let expected :=
    if bool_decide (season_index = final
                    ∧ (tmdb_status = "ended" ∨ tmdb_status = "canceled"))
    then "Series Finale" else "Season Finale" in
  (final ∈ dom all_tmdb_data ∧ ∀ k, k ∈ dom all_tmdb_data → k ≤ final)
  ∧ season_candidate_label season_index final tmdb_status unit
    = Some expected
  ∧ episode_candidate season_index final tmdb_status unit = Some expected
  ∧ (season_index ≠ final →
     season_candidate_label season_index final tmdb_status unit
     = Some "Season Finale"
     ∧ episode_candidate season_index final tmdb_status unit
       = Some "Season Finale").
Proof.
  intros Hfin Hty Hnum. cbv zeta.
  split; [by apply final_season_index_max|].
  unfold season_candidate_label, episode_candidate. rewrite Hty.
  replace (ep_number unit =? 1) with false by lia.
  rewrite andb_false_r. cbn [String.eqb Ascii.eqb Bool.eqb andb].
  assert (Hc : (season_index =? final) && terminal_status tmdb_status
               = bool_decide (season_index = final
                              ∧ (tmdb_status = "ended"
                                 ∨ tmdb_status = "canceled"))).
  { apply eq_true_iff_eq.
    rewrite andb_true_iff, bool_decide_eq_true, terminal_status_spec,
      Z.eqb_eq. done. }
  rewrite Hc. split; [done|]. split; [done|]. intros Hne.
  rewrite bool_decide_eq_false_2 by tauto. done.
Qed.

Lemma season_vs_series_finale_witness :
  season_candidate_label 2 2 "canceled" (Ex.ep 3 (mkdate 2024 1 1) "Finale")
  = Some "Series Finale"
  ∧ episode_candidate 1 2 "canceled" (Ex.ep 3 (mkdate 2024 1 1) "Finale")
    = Some "Season Finale".
Proof.
  pose proof (season_vs_series_finale
                (<[1 := Ex.tmdb_season1]> (<[2 := Ex.tmdb_season2]> ∅))
                2 2 "canceled" (Ex.ep 3 (mkdate 2024 1 1) "Finale")
                eq_refl eq_refl ltac:(discriminate)) as (_ & H2 & _).
  pose proof (season_vs_series_finale
                (<[1 := Ex.tmdb_season1]> (<[2 := Ex.tmdb_season2]> ∅))
                2 1 "canceled" (Ex.ep 3 (mkdate 2024 1 1) "Finale")
                eq_refl eq_refl ltac:(discriminate)) as (_ & _ & H1 & _).
  split; [exact H2|exact H1].
Defined.

End Classifiers.

(** ** [set_status_label] *)

Section StatusLabel.

Lemma specials_apply_status tmdb_status o :
  specials (apply_status tmdb_status o) = specials o.
Proof.
  unfold specials. apply set_eq. intros x.
  rewrite !elem_of_intersection.
  rewrite (proj2 (apply_status_spec tmdb_status o) x). split.
  - intros [[[H _]|(_ & -> & _)] Hs]; [done|].
    by apply status_label_not_special in Hs.
  - intros [H Hs]. split; [|done]. left. split; [done|].
    intros [_ Hst]. by apply special_not_status in Hs.
Qed.

Lemma specials_replace_stale (stale : string → bool) label o :
  (∀ x, x ∈ SPECIAL_LABELS → stale x = false) →
  label ∉ SPECIAL_LABELS →
  specials (replace_stale stale label o) = specials o.
Proof.
  intros Hstale Hlabel. unfold specials. apply set_eq. intros x.
  rewrite !elem_of_intersection.
  rewrite (proj2 (replace_stale_spec stale label o) x). split.
  - intros [[[H _]|[-> _]] Hs]; done.
  - intros [H Hs]. split; [|done]. left. split; [done|]. by apply Hstale.
Qed.

(** [set_status_label] leaves every Special label where it is, and of the
    latest season it can only change the labels of the season object. *)
Lemma set_status_label_frame tmdb_data today show tmdb_status latest :
  let r := set_status_label tmdb_data today show tmdb_status latest in
  specials r.1 = specials show
  ∧ index r.2 = index latest
  ∧ season_episodes r.2 = season_episodes latest
  ∧ specials (season_obj r.2) = specials (season_obj latest).
Proof.
  cbv zeta. unfold set_status_label.
  pose proof (upcoming_label_is_upcoming (next_episode_to_air tmdb_data)
                (index latest) today) as Hup.
  assert (Hu : ∀ x, x ∈ SPECIAL_LABELS → is_upcoming x = false)
    by (intros x Hx; by apply special_not_upcoming).
  assert (Hr : ∀ x, x ∈ SPECIAL_LABELS → is_returning x = false)
    by (intros x Hx; by apply special_not_upcoming).
  destruct (upcoming_label _ _ _) as [l|l|l|];
    cbn [fst snd index season_obj season_episodes with_obj];
    rewrite specials_apply_status;
    try destruct Hup as (H1 & H2 & H3);
    rewrite ?specials_replace_stale by done; done.
Qed.

(** The show's labels after [set_status_label], when it was freshly
    fetched. *)
Lemma apply_status_keeps label tmdb_status o :
  label ∉ STATUS_LABELS → label ∈ server o →
  label ∈ server (apply_status tmdb_status o).
Proof.
  intros Hst Hin. apply apply_status_spec. left. split; [done|]. tauto.
Qed.

(** C5, as the code has it. When the label derived from the next episode
    is "New Episode <date>", [set_status_label] puts it on the show and on
    the latest season: each of the two carries it afterwards if it did not
    carry it before. When the derived label is "New Season <date>" or
    "Returning <date>", it is put on the show in the same way and the
    latest season is left as it was. *)
Theorem upcoming_label_mirroring (tmdb_data : TmdbShow) (today : date)
    (show : PlexObj) (tmdb_status : string) (latest_season : PlexSeason)
    (label : string) :
  let r := set_status_label tmdb_data today show tmdb_status latest_season in
  let derived :=
    upcoming_label (next_episode_to_air tmdb_data) (index latest_season)
                   today in
  (derived = NewEpisode label →
     (label ∉ server show → label ∈ server r.1)
     ∧ (label ∉ server (season_obj latest_season) →
        label ∈ server (season_obj r.2)))
  ∧ (derived = NewSeason label ∨ derived = Returning label →
     (label ∉ server show → label ∈ server r.1) ∧ r.2 = latest_season).
Proof.
  cbv zeta. unfold set_status_label.
  pose proof (upcoming_label_is_upcoming (next_episode_to_air tmdb_data)
                (index latest_season) today) as Hup.
  split.
  - intros E. rewrite E in *. destruct Hup as (_ & _ & Hst).
    cbn [fst snd season_obj with_obj]. split; intros Hnew.
    + apply apply_status_keeps; [done|].
      apply replace_stale_spec. by right.
    + apply replace_stale_spec. by right.
  - intros [E|E]; rewrite E in *; destruct Hup as (_ & _ & Hst);
      cbn [fst snd]; (split; [|done]); intros Hnew;
      (apply apply_status_keeps; [done|]);
      apply replace_stale_spec; by right.
Qed.

(** C5, counterexample: with the next episode in a season 3 that Plex does
    not have yet, the derived label is "New Season Friday"; the show
    receives it and the latest season does not. *)
Lemma new_season_label_not_mirrored :
  let data := Ex.tmdb_next (Ex.next (mkdate 2024 3 8) 3 1) in
  let p := Ex.run data Ex.now1 Ex.show0 ∅ in
  upcoming_label (next_episode_to_air data) 2 Ex.today
  = NewSeason "New Season Friday"
  ∧ Ex.has "New Season Friday" (show_obj (pass_show p)) = true
  ∧ Ex.has "New Season Friday" (Ex.latest (pass_show p)) = false
  ∧ server (Ex.latest (pass_show p)) = ∅.
Proof. repeat apply conj; compute_done. Qed.

End StatusLabel.

(** ** Runs of the pass on the two-season library *)

Section Runs.

(** C1, evaluated. A second run on the same TMDb data removes the
    "New Episode Friday" label that the first run put on the show and on
    the latest season, and the Status label too; a third run puts them
    back. *)
Lemma second_run_removes_fresh_labels :
  server (show_obj (pass_show Ex.first_run))
  = {[ "New Episode Friday"; "Status: Returning Series" ]}
  ∧ server (Ex.latest (pass_show Ex.first_run)) = {[ "New Episode Friday" ]}
  ∧ server (show_obj (pass_show Ex.second_run)) = ∅
  ∧ server (Ex.latest (pass_show Ex.second_run)) = ∅
  ∧ server (show_obj (pass_show Ex.third_run))
    = {[ "New Episode Friday"; "Status: Returning Series" ]}
  ∧ special_view (pass_show Ex.second_run)
    = special_view (pass_show Ex.first_run).
Proof. repeat apply conj; compute_done. Qed.

(** C3, evaluated. After a completed pass the show carries two Status
    labels when the earlier one was built from a status outside
    [STATUS_LABELS], and two Upcoming labels when a "New Episode" label is
    present and the derived label is "Returning <date>". *)
Lemma two_labels_of_one_vocabulary :
  let p := Ex.run (Ex.tmdb_next None) Ex.now1
                  (Ex.show_with {[ "Status: In Production" ]}) ∅ in
  let r := Ex.run (Ex.tmdb_next (Ex.next (mkdate 2024 3 24) 2 5)) Ex.now1
                  (Ex.show_with {[ "New Episode Friday" ]}) ∅ in
  "Status: " +:+ PyStr.title (PyStr.lower "In Production")
  = "Status: In Production"
  ∧ pass_outcome p = Completed true
  ∧ server (show_obj (pass_show p))
    = {[ "Status: In Production"; "Status: Returning Series" ]}
  ∧ upcoming_label (Ex.next (mkdate 2024 3 24) 2 5) 2 Ex.today
    = Returning "Returning 03/24"
  ∧ pass_outcome r = Completed true
  ∧ server (show_obj (pass_show r))
    = {[ "New Episode Friday"; "Returning 03/24";
         "Status: Returning Series" ]}.
Proof. repeat apply conj; compute_done. Qed.

(** C4, evaluated. An Upcoming label on the show stays when there is no
    next episode, when the next episode is further away than
    [RETURNING_DAYS], and, unless it starts with "Returning", when the
    derived label is "Returning <date>". *)
Lemma stale_upcoming_label_stays :
  let old := Ex.show_with {[ "New Season Monday" ]} in
  let none := Ex.run (Ex.tmdb_next None) Ex.now1 old ∅ in
  let far := Ex.run (Ex.tmdb_next (Ex.next (mkdate 2024 5 1) 2 5)) Ex.now1
                    old ∅ in
  let back := Ex.run (Ex.tmdb_next (Ex.next (mkdate 2024 3 24) 2 5))
                     Ex.now1 old ∅ in
  upcoming_label None 2 Ex.today = NoUpcoming
  ∧ Ex.has "New Season Monday" (show_obj (pass_show none)) = true
  ∧ upcoming_label (Ex.next (mkdate 2024 5 1) 2 5) 2 Ex.today = NoUpcoming
  ∧ Ex.has "New Season Monday" (show_obj (pass_show far)) = true
  ∧ upcoming_label (Ex.next (mkdate 2024 3 24) 2 5) 2 Ex.today
    = Returning "Returning 03/24"
  ∧ Ex.has "New Season Monday" (show_obj (pass_show back)) = true.
Proof. repeat apply conj; compute_done. Qed.

End Runs.

(** ** Python's [max] and the ordered [dict] *)

Section PyMax.

Context {A : Type} (key : A → Z).

Lemma py_max_from_spec (l pre : list A) (best_pos : nat) (best : A) :
  pre !! best_pos = Some best →
  (∀ y, y ∈ pre → key y ≤ key best) →
  let r := py_max_from key best_pos best (length pre) l in
  ((pre ++ l)%list) !! r.1 = Some r.2
  ∧ ∀ y, y ∈ (pre ++ l)%list → key y ≤ key r.2.
Proof.
  revert pre best_pos best.
  induction l as [|x l IH]; intros pre best_pos best Hbest Hmax; cbn.
  - rewrite app_nil_r. done.
  - specialize (IH (pre ++ [x])%list).
    rewrite length_app, Nat.add_1_r in IH. cbn in IH.
    rewrite (cons_middle x pre l), app_assoc.
    destruct (key best <? key x) eqn:E.
    + apply IH.
      * rewrite lookup_app_r by done. by rewrite Nat.sub_diag.
      * intros y [Hy| ->%list_elem_of_singleton]%elem_of_app;
          [apply Hmax in Hy; lia|lia].
    + apply IH.
      * by apply lookup_app_l_Some.
      * intros y [Hy| ->%list_elem_of_singleton]%elem_of_app;
          [by apply Hmax|lia].
Qed.

(** [max(l, key=...)] is an element of [l], at the position given, and no
    element has a larger key. *)
Lemma py_max_spec (l : list A) (i : nat) (x : A) :
  py_max key l = Some (i, x) →
  l !! i = Some x ∧ ∀ y, y ∈ l → key y ≤ key x.
Proof.
  destruct l as [|a l]; [done|]. cbn. intros [= E].
  pose proof (py_max_from_spec l [a] 0%nat a eq_refl) as H.
  cbn in H. rewrite E in H. apply H.
  intros y ->%list_elem_of_singleton. lia.
Qed.

Lemma py_max_is_Some (l : list A) : l ≠ [] → is_Some (py_max key l).
Proof. destruct l; [done|]. intros _. by eexists. Qed.

End PyMax.

Section Dict.

Lemma dict_set_keys k v d :
  ∀ k', k' ∈ (dict_set k v d).*1 ↔ k' = k ∨ k' ∈ d.*1.
Proof.
  induction d as [|[k0 v0] d IH]; intros k'; cbn.
  - rewrite list_elem_of_singleton, elem_of_nil. tauto.
  - destruct (k =? k0) eqn:E; cbn; rewrite !elem_of_cons.
    + apply Z.eqb_eq in E as ->. tauto.
    + rewrite IH. tauto.
Qed.

Lemma dict_set_NoDup k v d : NoDup d.*1 → NoDup (dict_set k v d).*1.
Proof.
  induction d as [|[k0 v0] d IH]; cbn.
  - intros _. apply NoDup_singleton.
  - intros [Hk0 Hd]%NoDup_cons. destruct (k =? k0) eqn:E; cbn.
    + apply Z.eqb_eq in E as ->. by apply NoDup_cons.
    + apply NoDup_cons. split; [|by apply IH].
      rewrite dict_set_keys. intros [->|H]; [|done].
      by rewrite Z.eqb_refl in E.
Qed.

Lemma dict_set_values (P : string → Prop) k v d :
  P v → Forall (fun kv => P kv.2) d →
  Forall (fun kv => P kv.2) (dict_set k v d).
Proof.
  intros Hv. induction 1 as [|[k0 v0] d H0 Hd IH]; cbn.
  - by apply Forall_cons.
  - destruct (k =? k0); apply Forall_cons; done.
Qed.

End Dict.

(** ** The Special labels an object is left with *)

Section SpecialLabels.

Implicit Types (o : PlexObj).






Lemma season_candidate_label_special i final tmdb_status last_ep label :
  season_candidate_label i final tmdb_status last_ep = Some label →
  label ∈ SPECIAL_LABELS.
Proof.
  unfold season_candidate_label. rewrite elem_of_SPECIAL_LABELS.
  repeat case_match; intros [= <-]; tauto.
Qed.

Lemma episode_candidate_special i final tmdb_status ep label :
  episode_candidate i final tmdb_status ep = Some label →
  label ∈ SPECIAL_LABELS.
Proof.
  unfold episode_candidate. rewrite elem_of_SPECIAL_LABELS.
  repeat case_match; intros [= <-]; tauto.
Qed.

Lemma candidate_episodes_wf today i final tmdb_status tmdb_episodes :
  let d := candidate_episodes today i final tmdb_status tmdb_episodes in
  NoDup d.*1 ∧ Forall (fun kv => kv.2 ∈ SPECIAL_LABELS) d.
Proof.
  cbv zeta. unfold candidate_episodes.
  assert (Hnil : NoDup (@nil (Z * string)).*1
                 ∧ Forall (fun kv => kv.2 ∈ SPECIAL_LABELS)
                          (@nil (Z * string))).
  { split; [apply NoDup_nil_2|apply Forall_nil_2]. }
  revert Hnil. generalize (@nil (Z * string)).
  induction tmdb_episodes as [|ep eps IH]; intros d [Hnd Hsp]; cbn [foldl].
  - by split.
  - apply IH.
    destruct (ep_air_date ep); [|by split].
    destruct (date_gtb _ _); [by split|].
    destruct (episode_candidate _ _ _ _) eqn:E; [|by split]. split.
    + by apply dict_set_NoDup.
    + apply (dict_set_values (fun l => l ∈ SPECIAL_LABELS)); [|done].
      by apply episode_candidate_special in E.
Qed.

End SpecialLabels.

(** ** The loops over episodes and seasons *)

Section Loops.

Implicit Types (season s : PlexSeason) (items : list (Z * string)).

Lemma label_episode_frame acc item :
  index (label_episode acc item).1 = index acc.1
  ∧ season_obj (label_episode acc item).1 = season_obj acc.1.
Proof.
  destruct acc as [s m], item as [k c]. unfold label_episode.
  cbn [fst snd]. destruct (season_episodes s !! k); [|done].
  by destruct (set_episode_special_labels _ _).
Qed.


Lemma foldl_label_episode_frame items acc :
  index (foldl label_episode acc items).1 = index acc.1
  ∧ season_obj (foldl label_episode acc items).1 = season_obj acc.1.
Proof.
  revert acc. induction items as [|item items IH]; intros acc; [done|].
  cbn [foldl]. destruct (IH (label_episode acc item)) as [-> ->].
  apply label_episode_frame.
Qed.




End Loops.

Section Seasons.

Variables (today : date) (tmdb_status : string)
          (all_tmdb_data : gmap Z (list TmdbEpisode))
          (final latest_index : Z).

Local Abbreviation turn :=
  (process_season today tmdb_status all_tmdb_data final latest_index).
Local Abbreviation loop :=
  (season_loop today tmdb_status all_tmdb_data final latest_index).
Local Abbreviation computed :=
  (computed_season_label today tmdb_status all_tmdb_data final).

Lemma computed_season_label_special i label :
  computed i = Some label → label ∈ SPECIAL_LABELS.
Proof.
  unfold computed_season_label. destruct (all_tmdb_data !! i); [|done].
  destruct (py_max _ _) as [[? last_ep]|]; [|done].
  apply season_candidate_label_special.
Qed.

Lemma process_season_index s lbl m : index (turn s lbl m).1.1 = index s.
Proof.
  unfold process_season. destruct (all_tmdb_data !! index s); [|done].
  destruct (py_max _ _) as [[? last_ep]|]; [|done].
  destruct (match season_candidate_label _ _ _ _ with
            | Some l => _ | None => _ end) as [o modified].
  destruct (foldl _ _ _) as [s' m'] eqn:E. cbn [fst].
  pose proof (foldl_label_episode_frame
                (candidate_episodes today (index (with_obj s o)) final
                                    tmdb_status l)
                (with_obj s o, m || modified)) as [Hi _].
  rewrite E in Hi. done.
Qed.

(** The label a turn leaves in [latest_season_label]. *)
Lemma process_season_label s lbl m :
  (index s = latest_index →
     (turn s lbl m).1.2 = computed latest_index
     ∨ (computed latest_index = None ∧ (turn s lbl m).1.2 = lbl))
  ∧ (index s ≠ latest_index → (turn s lbl m).1.2 = lbl).
Proof.
  unfold process_season, computed_season_label.
  split; intros Hi.
  - rewrite <- Hi. destruct (all_tmdb_data !! index s); [|by right].
    destruct (py_max _ _) as [[? last_ep]|]; [|by right].
    destruct (match season_candidate_label _ _ _ _ with
              | Some l => _ | None => _ end) as [o modified].
    destruct (foldl _ _ _) as [s' m']. cbn [fst snd index with_obj].
    rewrite Z.eqb_refl. by left.
  - destruct (all_tmdb_data !! index s); [|done].
    destruct (py_max _ _) as [[? last_ep]|]; [|done].
    destruct (match season_candidate_label _ _ _ _ with
              | Some l => _ | None => _ end) as [o modified].
    destruct (foldl _ _ _) as [s' m']. cbn [fst snd index with_obj].
    by replace (index s =? latest_index) with false by lia.
Qed.


Lemma season_loop_index seasons lbl m :
  index <$> (loop seasons lbl m).1.1 = index <$> seasons.
Proof.
  revert lbl m. induction seasons as [|s rest IH]; intros lbl m; [done|].
  cbn [season_loop]. pose proof (process_season_index s lbl m) as Hi.
  destruct (turn s lbl m) as [[s' lbl'] m']. cbn [fst] in Hi.
  specialize (IH lbl' m').
  destruct (loop rest lbl' m') as [[rest' lbl''] m'']. cbn [fst] in *.
  by rewrite fmap_cons, Hi, IH.
Qed.

(** After the loop [latest_season_label] holds the label computed for the
    index of [latest_season], as soon as a season with that index is in the
    list. *)
Lemma season_loop_label seasons lbl m :
  lbl = None ∨ lbl = computed latest_index →
  ((loop seasons lbl m).1.2 = None
   ∨ (loop seasons lbl m).1.2 = computed latest_index)
  ∧ (lbl = computed latest_index
     ∨ (∃ s, s ∈ seasons ∧ index s = latest_index) →
     (loop seasons lbl m).1.2 = computed latest_index).
Proof.
  revert lbl m. induction seasons as [|s rest IH]; intros lbl m Hlbl.
  - cbn. split; [done|]. intros [H|(s & Hs & _)]; [done|].
    by apply elem_of_nil in Hs.
  - cbn [season_loop].
    pose proof (process_season_label s lbl m) as [Hyes Hno].
    destruct (turn s lbl m) as [[s' lbl'] m']. cbn [fst snd] in *.
    assert (Hlbl' : lbl' = None ∨ lbl' = computed latest_index).
    { destruct (decide (index s = latest_index)) as [Hi|Hi].
      - destruct (Hyes Hi) as [H|[H1 H2]]; [by right|]. subst lbl'.
        done.
      - by rewrite (Hno Hi). }
    destruct (IH lbl' m' Hlbl') as [IH1 IH2].
    destruct (loop rest lbl' m') as [[rest' lbl''] m'']. cbn [fst snd] in *.
    split; [done|]. intros Hex. apply IH2.
    destruct (decide (index s = latest_index)) as [Hi|Hi].
    + left. destruct (Hyes Hi) as [H|[H1 H2]]; [done|]. subst lbl'.
      destruct Hlbl as [-> | ->]; done.
    + rewrite (Hno Hi). destruct Hex as [H|(s0 & Hs0 & Hi0)]; [by left|].
      right. apply elem_of_cons in Hs0 as [->|Hs0]; [done|]. eauto.
Qed.


End Seasons.

(** ** The pass over one show *)

Section Pass.

Lemma should_process_false last_updated last_air_date :
  (∀ d, last_air_date = Some d →
        datetime_gtb (midnight d) last_updated = false) →
  should_process (Some last_updated) last_air_date = false.
Proof.
  intros H. unfold should_process.
  rewrite bool_decide_eq_true_2 by by eexists. cbn [negb orb].
  destruct last_air_date as [d|]; [|done]. cbn. by apply H.
Qed.

Lemma fmap_insert_same {A B} (f : A → B) (l : list A) i x x' :
  l !! i = Some x → f x' = f x → f <$> <[i := x']> l = f <$> l.
Proof.
  intros Hl Hf. rewrite list_fmap_insert, Hf.
  apply list_insert_id. by rewrite list_lookup_fmap, Hl.
Qed.

(** What [set_status_label] and the write through [latest_season] leave of
    the seasons. *)
Lemma status_phase_frame tmdb_data today show tmdb_status pos latest :
  py_max index (seasons show) = Some (pos, latest) →
  let r := set_status_label tmdb_data today (show_obj show) tmdb_status
                            latest in
  let plex_seasons := <[pos := r.2]> (seasons show) in
  specials r.1 = specials (show_obj show)
  ∧ season_specials <$> plex_seasons = season_specials <$> seasons show
  ∧ index <$> plex_seasons = index <$> seasons show
  ∧ plex_seasons !! pos = Some r.2
  ∧ index r.2 = index latest
  ∧ season_episodes r.2 = season_episodes latest.
Proof.
  intros [Hpos _]%py_max_spec. cbv zeta.
  destruct (set_status_label_frame tmdb_data today (show_obj show)
              tmdb_status latest) as (Hs & Hi & He & Ho).
  split; [done|]. split; [|split; [|split]].
  - apply (fmap_insert_same _ _ _ latest); [done|].
    unfold season_specials. by rewrite Ho, He.
  - by apply (fmap_insert_same _ _ _ latest).
  - apply list_lookup_insert_eq. by eapply lookup_lt_Some.
  - done.
Qed.

(** C2, as the code has it. For a series with an entry in the update log
    whose TMDb last air date is not later than that entry, the pass does what
    [set_status_label] does and nothing else: the update log is unchanged, no
    season batch is requested, no Special label of the show, of a season or
    of an episode changes, no episode changes at all, and the only season
    object that can change is [latest_season]. (The Status and Upcoming
    labels of the show and the Upcoming label of the latest season are
    still reconciled.) *)
Theorem change_gate_skip (tmdb_response : option TmdbShow)
    (fetch : list Z → option (gmap Z (list TmdbEpisode)))
    (today : date) (now : datetime) (show : PlexShow)
    (update_log : gmap string datetime) (tmdb_id : string)
    (last_updated : datetime) :
  tmdb_guid show = Some tmdb_id →
  update_log !! tmdb_id = Some last_updated →
  (∀ data d, tmdb_response = Some data → last_air_date data = Some d →
             datetime_gtb (midnight d) last_updated = false) →
  let p := process_show tmdb_response fetch today now show update_log in
  pass_log p = update_log
  ∧ (∀ any_modified, pass_outcome p ≠ Completed any_modified)
  ∧ p = process_show tmdb_response (fun _ => None) today now show update_log
  ∧ special_view (pass_show p) = special_view show
  ∧ length (seasons (pass_show p)) = length (seasons show)
  ∧ ∀ i s, seasons show !! i = Some s →
           ∃ s', seasons (pass_show p) !! i = Some s'
                 ∧ index s' = index s
                 ∧ season_episodes s' = season_episodes s
                 ∧ (s' = s
                    ∨ ∃ latest, py_max index (seasons show)
                                = Some (i, latest)).
Proof.
  intros Hguid Hlog Hair. cbv zeta. unfold process_show. rewrite Hguid.
  assert (Hsame : ∀ i s, seasons show !! i = Some s →
            ∃ s', seasons show !! i = Some s' ∧ index s' = index s
                  ∧ season_episodes s' = season_episodes s
                  ∧ (s' = s ∨ ∃ latest, py_max index (seasons show)
                                        = Some (i, latest))).
  { intros i s Hs. exists s. auto. }
  destruct (PyStr.truthy tmdb_id); cbn [negb];
    [|by repeat split].
  destruct tmdb_response as [tmdb_data|]; [|by repeat split].
  destruct (py_max index (seasons show)) as [[pos latest]|] eqn:Hmax;
    [|by repeat split].
  pose proof (status_phase_frame tmdb_data today show
                (PyStr.lower (status tmdb_data)) pos latest Hmax) as Hfr.
  cbv zeta in Hfr.
  destruct (set_status_label tmdb_data today (show_obj show)
              (PyStr.lower (status tmdb_data)) latest) as [show_o latest'].
  cbn [fst snd] in Hfr. destruct Hfr as (Hsp & Hss & Hidx & Hlk & Hi & He).
  rewrite Hlog, should_process_false by eauto. cbn [negb].
  cbn [pass_log pass_outcome pass_show seasons show_obj].
  split; [done|]. split; [done|]. split; [done|]. split; [|split].
  - unfold special_view. cbn [show_obj seasons]. by rewrite Hsp, Hss.
  - apply length_insert.
  - intros i s Hs. destruct (decide (i = pos)) as [->|Hne].
    + exists latest'. apply py_max_spec in Hmax as [Hpos _].
      assert (s = latest) as -> by congruence. eauto 10.
    + exists s. rewrite list_lookup_insert_ne by done. auto.
Qed.

Lemma change_gate_skip_witness :
  let p := Ex.run Ex.tmdb Ex.now2 Ex.show0 {[ "42" := Ex.now1 ]} in
  pass_log p = {[ "42" := Ex.now1 ]}
  ∧ special_view (pass_show p) = special_view Ex.show0.
Proof.
  pose proof (change_gate_skip (Some Ex.tmdb) Ex.fetch Ex.today Ex.now2
                Ex.show0 {[ "42" := Ex.now1 ]} "42" Ex.now1 eq_refl eq_refl)
    as H.
  cbv zeta in H. destruct H as (H1 & _ & _ & H2 & _).
  - intros data d [= <-] [= <-]. reflexivity.
  - split; [exact H1|exact H2].
Defined.

(** C2, counterexample: the series has an entry in the update log, its last
    air date is older than the entry and the pass skips it at the change
    gate, yet labels are added to the show and to its latest season. *)
Lemma change_gate_skip_still_labels :
  let p := Ex.run Ex.tmdb Ex.now2 Ex.show0 {[ "42" := Ex.now1 ]} in
  should_process (Some Ex.now1) (last_air_date Ex.tmdb) = false
  ∧ pass_outcome p = NoNewEpisodes
  ∧ server (show_obj Ex.show0) = ∅
  ∧ server (show_obj (pass_show p))
    = {[ "New Episode Friday"; "Status: Returning Series" ]}
  ∧ server (Ex.latest Ex.show0) = ∅
  ∧ server (Ex.latest (pass_show p)) = {[ "New Episode Friday" ]}.
Proof. repeat apply conj; compute_done. Qed.





End Pass.

(** * The helpers, the passes and the rest of the script *)

(** * Further properties of the script *)

(** ** The three label helpers *)

Section Helpers.

Implicit Types (o : PlexObj).




End Helpers.

(** ** The Special label of an aired episode *)

Section SpecialClassifier.

(** X3. The two copies of the classifier, the one for the season label and the
    one for the episode labels, give the same answer. Episode number 1 is
    "Pilot" in season 1 and "Season Premiere" elsewhere whatever its episode
    type; a later episode of type "mid_season" is "Mid-Season Finale"; there
    is no label exactly for a later episode of any other type than
    "mid_season" and "finale", the type being compared in lower case. *)
Theorem special_classifier_cases (season_index final : Z)
    (tmdb_status : string) (ep : TmdbEpisode) :
  season_candidate_label season_index final tmdb_status ep
  = episode_candidate season_index final tmdb_status ep
  ∧ (ep_number ep = 1 →
     episode_candidate season_index final tmdb_status ep
     = Some (if season_index =? 1 then "Pilot" else "Season Premiere"))
  ∧ (ep_number ep ≠ 1 → PyStr.lower (ep_type ep) = "mid_season" →
     episode_candidate season_index final tmdb_status ep
     = Some "Mid-Season Finale")
  ∧ (episode_candidate season_index final tmdb_status ep = None
     ↔ ep_number ep ≠ 1
       ∧ PyStr.lower (ep_type ep) ≠ "mid_season"
       ∧ PyStr.lower (ep_type ep) ≠ "finale").
Proof.
  unfold season_candidate_label, episode_candidate.
  destruct (ep_number ep =? 1) eqn:E1.
  - apply Z.eqb_eq in E1. rewrite andb_true_r.
    split; [by destruct (season_index =? 1)|].
    split; [by destruct (season_index =? 1)|].
    split; [done|]. split; [by destruct (season_index =? 1)|tauto].
  - apply Z.eqb_neq in E1. rewrite andb_false_r.
    split; [done|]. split; [done|].
    destruct (String.eqb (PyStr.lower (ep_type ep)) "mid_season") eqn:E2.
    + apply String.eqb_eq in E2. split; [done|]. split; [done|]. tauto.
    + apply String.eqb_neq in E2. split; [done|].
      destruct (String.eqb (PyStr.lower (ep_type ep)) "finale") eqn:E3.
      * apply String.eqb_eq in E3. split; [done|]. tauto.
      * apply String.eqb_neq in E3. tauto.
Qed.

End SpecialClassifier.

(** ** [chunks] and the season requests *)

Section Chunks.

Context {A : Type}.

Lemma chunks_from_lookup (fuel n : nat) (lst : list A) (i : nat) :
  (0 < n)%nat → (length lst ≤ fuel)%nat →
  chunks_from fuel n lst !! i
  = if decide (i * n < length lst)%nat
    then Some (take n (drop (i * n) lst)) else None.
Proof.
  intros Hn. revert lst i.
  induction fuel as [|fuel IH]; intros lst i Hlen.
  - destruct lst; [|cbn in Hlen; lia]. cbn.
    case_decide; [cbn in *; lia|done].
  - destruct lst as [|a lst].
    { cbn. case_decide; [cbn in *; lia|done]. }
    cbn [chunks_from]. destruct i as [|i].
    + cbn [lookup list_lookup]. rewrite Nat.mul_0_l, drop_0.
      case_decide; [done|cbn in *; lia].
    + cbn [lookup list_lookup].
      change (chunks_from fuel n (drop n (a :: lst)) !! i
              = if decide (S i * n < length (a :: lst))%nat
                then Some (take n (drop (S i * n) (a :: lst))) else None).
      rewrite IH by (rewrite length_drop; cbn in *; lia).
      rewrite length_drop, drop_drop.
      replace (n + i * n)%nat with (S i * n)%nat by lia.
      repeat case_decide; try done; lia.
Qed.

Lemma chunks_from_concat (fuel n : nat) (lst : list A) :
  (0 < n)%nat → (length lst ≤ fuel)%nat →
  concat (chunks_from fuel n lst) = lst.
Proof.
  intros Hn. revert lst. induction fuel as [|fuel IH]; intros lst Hlen.
  - by destruct lst; [|cbn in Hlen; lia].
  - destruct lst as [|a lst]; [done|]. cbn [chunks_from concat].
    rewrite IH by (rewrite length_drop; cbn in *; lia).
    apply take_drop.
Qed.

Lemma chunks_lookup (lst : list A) (n i : nat) :
  (0 < n)%nat →
  chunks lst n !! i
  = if decide (i * n < length lst)%nat
    then Some (take n (drop (i * n) lst)) else None.
Proof. intros Hn. by apply chunks_from_lookup. Qed.

Lemma chunks_concat (lst : list A) (n : nat) :
  (0 < n)%nat → concat (chunks lst n) = lst.
Proof. intros Hn. by apply chunks_from_concat. Qed.

Lemma chunks_bounds (lst : list A) (n : nat) :
  (0 < n)%nat →
  Forall (fun c => c ≠ [] ∧ (length c ≤ n)%nat) (chunks lst n).
Proof.
  intros Hn. apply Forall_lookup. intros i c Hc.
  rewrite chunks_lookup in Hc by done.
  case_decide as Hi; [|done]. injection Hc as <-. split.
  - intros Hnil. apply (f_equal length) in Hnil.
    rewrite length_take, length_drop in Hnil. cbn in Hnil. lia.
  - rewrite length_take. lia.
Qed.

(** X4. [chunks(lst, n)] cuts [lst] into the slices [lst[i*n : i*n + n]]:
    chunk [i] exists exactly when [i * n] is a position of [lst]; no chunk is
    empty or longer than [n], and the chunks put end to end give [lst] back.
    *)
Theorem chunks_slices (lst : list A) (n : nat) :
  (0 < n)%nat →
  (∀ i, chunks lst n !! i
        = if decide (i * n < length lst)%nat
          then Some (take n (drop (i * n) lst)) else None)
  ∧ concat (chunks lst n) = lst
  ∧ Forall (fun c => c ≠ [] ∧ (length c ≤ n)%nat) (chunks lst n).
Proof.
  intros Hn. split; [|split].
  - intros i. by apply chunks_lookup.
  - by apply chunks_concat.
  - by apply chunks_bounds.
Qed.

End Chunks.

Lemma chunks_slices_witness :
  chunks [1; 2; 3; 4; 5] 2 = [[1; 2]; [3; 4]; [5]]
  ∧ concat (chunks [1; 2; 3; 4; 5] 2) = [1; 2; 3; 4; 5].
Proof.
  split; [reflexivity|].
  exact (proj1 (proj2 (chunks_slices [1; 2; 3; 4; 5] 2 ltac:(lia)))).
Defined.

Section SeasonRequests.

Implicit Types (fetch : list Z → option (gmap Z (list TmdbEpisode)))
               (all : gmap Z (list TmdbEpisode)).

Lemma store_parts_lookup (data all : gmap Z (list TmdbEpisode))
    (batch : list Z) (k : Z) :
  foldl (fun all_tmdb_data n =>
           match data !! n with
           | Some part => <[n := part]> all_tmdb_data
           | None => all_tmdb_data
           end) all batch !! k
  = if decide (k ∈ batch ∧ is_Some (data !! k)) then data !! k else all !! k.
Proof.
  revert all. induction batch as [|n batch IH]; intros all; cbn [foldl].
  - case_decide as H; [|done]. destruct H as [H _]. by apply elem_of_nil in H.
  - rewrite IH. destruct (decide (k ∈ batch ∧ is_Some (data !! k)))
      as [[Hin Hsome]|Hno].
    + rewrite decide_True; [done|]. split; [by apply elem_of_cons; right|done].
    + destruct (decide (k = n)) as [->|Hne].
      * destruct (data !! n) as [part|] eqn:Hn.
        -- rewrite lookup_insert_eq, decide_True; [done|].
           split; [by apply elem_of_cons; left|by eexists].
        -- rewrite decide_False; [done|]. intros [_ [? ?]]. done.
      * assert (Hrest : (match data !! n with
                         | Some part => <[n := part]> all
                         | None => all
                         end) !! k = all !! k).
        { destruct (data !! n); [by rewrite lookup_insert_ne|done]. }
        rewrite Hrest. rewrite decide_False; [done|].
        intros [[?|?]%elem_of_cons ?]; tauto.
Qed.

Lemma fetch_batches_lookup fetch (batches : list (list Z)) all (k : Z)
    (part : list TmdbEpisode) :
  foldl (fun all_tmdb_data batch =>
           match fetch batch with
           | None => all_tmdb_data
           | Some data =>
               foldl (fun all_tmdb_data n =>
                        match data !! n with
                        | Some part => <[n := part]> all_tmdb_data
                        | None => all_tmdb_data
                        end)
                     all_tmdb_data batch
           end) all batches !! k = Some part →
  all !! k = Some part
  ∨ ∃ batch data, batch ∈ batches ∧ fetch batch = Some data
                  ∧ k ∈ batch ∧ data !! k = Some part.
Proof.
  revert all. induction batches as [|batch batches IH]; intros all;
    cbn [foldl]; [by left|].
  intros [H|(b & data & Hb & Hf & Hk & Hd)]%IH.
  - destruct (fetch batch) as [data|] eqn:Hf; [|by left].
    rewrite store_parts_lookup in H. case_decide as Hc; [|by left].
    right. exists batch, data. destruct Hc. split; [by left|done].
  - right. exists b, data. split; [by right|done].
Qed.

Lemma fetch_batches_None fetch (batches : list (list Z)) all :
  (∀ batch, batch ∈ batches → fetch batch = None) →
  foldl (fun all_tmdb_data batch =>
           match fetch batch with
           | None => all_tmdb_data
           | Some data =>
               foldl (fun all_tmdb_data n =>
                        match data !! n with
                        | Some part => <[n := part]> all_tmdb_data
                        | None => all_tmdb_data
                        end)
                     all_tmdb_data batch
           end) all batches = all.
Proof.
  revert all. induction batches as [|batch batches IH]; intros all Hnone;
    cbn [foldl]; [done|].
  rewrite (Hnone batch) by by left. apply IH. intros b Hb. apply Hnone.
  by right.
Qed.

Lemma elem_of_chunks (ns batch : list Z) (k : Z) :
  batch ∈ chunks ns 20 → k ∈ batch → k ∈ ns.
Proof.
  intros Hb Hk.
  rewrite <- (chunks_concat ns 20) by lia. apply list_elem_of_In, in_concat.
  exists batch. by rewrite <- !list_elem_of_In.
Qed.

(** X5. Every part kept in [all_tmdb_data] was asked for, in a batch of at
    most 20 season numbers whose request succeeded, and is the part that
    answer held for the season. Season 0 is never asked for, so it is never
    there. *)
Theorem fetched_parts_were_requested fetch (plex_seasons : list PlexSeason)
    (k : Z) (part : list TmdbEpisode) :
  fetch_seasons fetch (season_numbers plex_seasons) !! k = Some part →
  k ≠ 0
  ∧ (∃ season, season ∈ plex_seasons ∧ index season = k)
  ∧ ∃ batch data,
      batch ∈ chunks (season_numbers plex_seasons) 20
      ∧ (length batch ≤ 20)%nat
      ∧ k ∈ batch
      ∧ fetch batch = Some data
      ∧ data !! k = Some part.
Proof.
  unfold fetch_seasons.
  intros [H|(batch & data & Hb & Hf & Hk & Hd)]%fetch_batches_lookup;
    [by rewrite lookup_empty in H|].
  assert (Hin : k ∈ season_numbers plex_seasons)
    by by eapply elem_of_chunks.
  unfold season_numbers in Hin.
  apply list_elem_of_In, List.filter_In in Hin as [Hin Hnz].
  apply list_elem_of_In, list_elem_of_fmap in Hin as (season & -> & Hs).
  split; [by apply negb_true_iff, Z.eqb_neq in Hnz|].
  split; [by exists season|].
  exists batch, data.
  assert (Hall := chunks_bounds (season_numbers plex_seasons) 20
                    ltac:(lia)).
  rewrite Forall_forall in Hall. destruct (Hall batch Hb) as [_ Hlen].
  done.
Qed.

Lemma fetched_parts_were_requested_witness :
  2 ≠ 0
  ∧ (∃ season, season ∈ Ex.plex_seasons ∧ index season = 2)
  ∧ ∃ batch data,
      batch ∈ chunks (season_numbers Ex.plex_seasons) 20
      ∧ (length batch ≤ 20)%nat
      ∧ 2 ∈ batch
      ∧ Ex.fetch batch = Some data
      ∧ data !! 2 = Some Ex.tmdb_season2.
Proof.
  apply (fetched_parts_were_requested Ex.fetch Ex.plex_seasons 2
           Ex.tmdb_season2).
  vm_compute. reflexivity.
Defined.

End SeasonRequests.

(** ** The labels the pass does not write *)

Section Unmanaged.

Implicit Types (o : PlexObj) (X Y : gset string).

Lemma unmanaged_ext X Y :
  (∀ x, managed x = false → (x ∈ X ↔ x ∈ Y)) → unmanaged X = unmanaged Y.
Proof.
  intros H. apply set_eq. intros x. unfold unmanaged.
  rewrite !elem_of_filter. split; intros [Hm Hx]; (split; [done|]);
    by apply H.
Qed.

Lemma managed_false x :
  managed x = false →
  (x ∉ SPECIAL_LABELS) ∧ is_upcoming x = false ∧ is_returning x = false
  ∧ (x ∉ STATUS_LABELS) ∧ ∀ s, x ≠ "Status: " +:+ s.
Proof.
  unfold managed. rewrite !orb_false_iff, bool_decide_eq_false.
  intros [[Hsp Hup] Hst]. split; [done|]. split; [done|].
  split; [|split].
  - unfold is_upcoming in Hup. rewrite !orb_false_iff in Hup. tauto.
  - rewrite elem_of_STATUS_LABELS. intros [-> | [-> | ->]]; discriminate Hst.
  - intros s ->. by rewrite startswith_append in Hst.
Qed.

Lemma unmanaged_set_label o label :
  label ∈ SPECIAL_LABELS →
  unmanaged (server (set_label o label).1) = unmanaged (server o).
Proof.
  intros Hl. apply unmanaged_ext. intros x (Hsp & _)%managed_false.
  rewrite (proj1 (proj2 (set_label_spec o label)) x). split.
  - intros [[? _]|[-> _]]; done.
  - intros ?. left. tauto.
Qed.

Lemma unmanaged_remove_all_special_labels o :
  unmanaged (server (remove_all_special_labels o)) = unmanaged (server o).
Proof.
  apply unmanaged_ext. intros x (Hsp & _)%managed_false.
  rewrite (proj2 (remove_all_special_labels_spec o)). set_solver.
Qed.

Lemma unmanaged_set_episode_special_labels o label :
  label ∈ SPECIAL_LABELS →
  unmanaged (server (set_episode_special_labels o {[ label ]}).1)
  = unmanaged (server o).
Proof.
  intros Hl. apply unmanaged_ext. intros x (Hsp & _)%managed_false.
  rewrite (proj1 (set_episode_special_labels_spec o {[ label ]}) x).
  rewrite elem_of_singleton. split.
  - intros [[? _]| ->]; done.
  - intros ?. left. tauto.
Qed.

Lemma unmanaged_replace_stale (stale : string → bool) label o :
  (∀ x, managed x = false → stale x = false) → managed label = true →
  unmanaged (server (replace_stale stale label o)) = unmanaged (server o).
Proof.
  intros Hstale Hl. apply unmanaged_ext. intros x Hx.
  rewrite (proj2 (replace_stale_spec stale label o) x). split.
  - intros [[? _]|[-> _]]; [done|congruence].
  - intros ?. left. split; [done|]. by apply Hstale.
Qed.

Lemma unmanaged_apply_status tmdb_status o :
  unmanaged (server (apply_status tmdb_status o)) = unmanaged (server o).
Proof.
  apply unmanaged_ext. intros x (_ & _ & _ & Hst & Hne)%managed_false.
  rewrite (proj2 (apply_status_spec tmdb_status o) x). split.
  - intros [[? _]|(_ & -> & _)]; [done|].
    by destruct (Hne (PyStr.title tmdb_status)).
  - intros ?. left. split; [done|]. tauto.
Qed.

Lemma upcoming_label_managed next_ep latest_index today :
  match upcoming_label next_ep latest_index today with
  | NewEpisode l | NewSeason l | Returning l => managed l = true
  | NoUpcoming => True
  end.
Proof.
  pose proof (upcoming_label_is_upcoming next_ep latest_index today) as H.
  unfold managed. destruct (upcoming_label _ _ _) as [l|l|l|]; [| | |done].
  - destruct H as [-> _]. by rewrite orb_true_r.
  - destruct H as [-> _]. by rewrite orb_true_r.
  - destruct H as [H _]. unfold is_upcoming, is_returning in *.
    rewrite H. by rewrite !orb_true_r.
Qed.

Lemma unmanaged_set_status_label tmdb_data today show tmdb_status latest :
  let r := set_status_label tmdb_data today show tmdb_status latest in
  unmanaged (server r.1) = unmanaged (server show)
  ∧ unmanaged (server (season_obj r.2)) = unmanaged (server (season_obj latest))
  ∧ index r.2 = index latest
  ∧ season_episodes r.2 = season_episodes latest.
Proof.
  cbv zeta. unfold set_status_label.
  pose proof (upcoming_label_managed (next_episode_to_air tmdb_data)
                (index latest) today) as Hup.
  assert (Hu : ∀ x, managed x = false → is_upcoming x = false)
    by (intros x Hx%managed_false; tauto).
  assert (Hr : ∀ x, managed x = false → is_returning x = false)
    by (intros x Hx%managed_false; tauto).
  destruct (upcoming_label _ _ _) as [l|l|l|];
    cbn [fst snd index season_obj season_episodes with_obj];
    rewrite unmanaged_apply_status.
  - by rewrite !unmanaged_replace_stale.
  - by rewrite unmanaged_replace_stale.
  - by rewrite unmanaged_replace_stale.
  - done.
Qed.

Local Abbreviation season_rest :=
  (fun s : PlexSeason => (index s, unmanaged (server (season_obj s)),
                          unmanaged <$> season_episodes s)).

Lemma unmanaged_label_episode acc item :
  item.2 ∈ SPECIAL_LABELS →
  season_rest (label_episode acc item).1 = season_rest acc.1.
Proof.
  destruct acc as [s m], item as [k c]. cbn [fst snd]. intros Hc.
  unfold label_episode.
  destruct (season_episodes s !! k) as [stored|] eqn:Hst; [|done].
  pose proof (unmanaged_set_episode_special_labels (fetched stored) c Hc)
    as Hun.
  destruct (set_episode_special_labels (fetched stored) {[ c ]})
    as [plex_ep updated].
  cbn [fst snd index season_obj season_episodes server fetched] in *.
  f_equal. rewrite fmap_insert, Hun.
  apply insert_id. by rewrite lookup_fmap, Hst.
Qed.

Lemma unmanaged_foldl_label_episode items acc :
  Forall (fun kv => kv.2 ∈ SPECIAL_LABELS) items →
  season_rest (foldl label_episode acc items).1 = season_rest acc.1.
Proof.
  intros Hsp. revert acc.
  induction Hsp as [|item items Hc _ IH]; intros acc; [done|].
  cbn [foldl]. rewrite IH. by apply unmanaged_label_episode.
Qed.

Lemma unmanaged_candidate_episodes today final tmdb_status eps s m :
  season_rest
    (foldl label_episode (s, m)
           (candidate_episodes today (index s) final tmdb_status eps)).1
  = season_rest s.
Proof.
  pose proof (candidate_episodes_wf today (index s) final tmdb_status eps)
    as [_ Hsp].
  by rewrite unmanaged_foldl_label_episode.
Qed.

Lemma unmanaged_process_season today tmdb_status all final latest_index
    s lbl m :
  season_rest (process_season today tmdb_status all final latest_index
                              s lbl m).1.1
  = season_rest s.
Proof.
  unfold process_season. destruct (all !! index s) as [eps|]; [|done].
  destruct (py_max _ _) as [[? last_ep]|].
  2:{ cbn [fst index season_obj season_episodes with_obj].
      by rewrite unmanaged_remove_all_special_labels. }
  destruct (season_candidate_label _ _ _ _) as [l|] eqn:El.
  - apply season_candidate_label_special in El.
    pose proof (unmanaged_set_label (season_obj s) l El) as Hun.
    destruct (set_label (season_obj s) l) as [o modified]. cbn [fst] in Hun.
    pose proof (unmanaged_candidate_episodes today final tmdb_status eps
                  (with_obj s o) (m || modified)) as Hf.
    destruct (foldl _ _ _) as [s' m']. cbn [fst snd] in *.
    rewrite Hf. cbn [index season_obj season_episodes with_obj].
    by rewrite Hun.
  - pose proof (unmanaged_candidate_episodes today final tmdb_status eps
                  (with_obj s (remove_all_special_labels (season_obj s)))
                  (m || false)) as Hf.
    destruct (foldl _ _ _) as [s' m']. cbn [fst snd] in *.
    rewrite Hf. cbn [index season_obj season_episodes with_obj].
    by rewrite unmanaged_remove_all_special_labels.
Qed.

Lemma unmanaged_season_loop today tmdb_status all final latest_index
    plex_seasons lbl m :
  season_rest <$> (season_loop today tmdb_status all final latest_index
                               plex_seasons lbl m).1.1
  = season_rest <$> plex_seasons.
Proof.
  revert lbl m. induction plex_seasons as [|s rest IH]; intros lbl m;
    [done|].
  cbn [season_loop].
  pose proof (unmanaged_process_season today tmdb_status all final
                latest_index s lbl m) as Hs.
  destruct (process_season _ _ _ _ _ s lbl m) as [[s' lbl'] m'].
  specialize (IH lbl' m').
  destruct (season_loop _ _ _ _ _ rest lbl' m') as [[rest' lbl''] m''].
  cbn [fst] in *. by rewrite !fmap_cons, Hs, IH.
Qed.

(** X6. Whatever the pass over a show does, it keeps the TMDb id, the seasons
    with their indices, the episodes of each season, and, on the show, on
    every season and on every episode, every label that is not Special, has no
    Upcoming prefix and does not start with "Status: ". *)
Theorem pass_keeps_other_labels (tmdb_response : option TmdbShow)
    (fetch : list Z → option (gmap Z (list TmdbEpisode)))
    (today : date) (now : datetime) (show : PlexShow)
    (update_log : gmap string datetime) :
  unmanaged_view
    (pass_show (process_show tmdb_response fetch today now show update_log))
  = unmanaged_view show.
Proof.
  unfold process_show.
  destruct (tmdb_guid show) as [tmdb_id|] eqn:Hguid; [|done].
  destruct (PyStr.truthy tmdb_id); cbn [negb]; [|done].
  destruct tmdb_response as [tmdb_data|]; [|done].
  destruct (py_max index (seasons show)) as [[pos latest]|] eqn:Hmax;
    [|done].
  apply py_max_spec in Hmax as [Hpos _].
  pose proof (unmanaged_set_status_label tmdb_data today (show_obj show)
                (PyStr.lower (status tmdb_data)) latest) as Hst.
  cbv zeta in Hst.
  destruct (set_status_label tmdb_data today (show_obj show)
              (PyStr.lower (status tmdb_data)) latest) as [show_o latest'].
  cbn [fst snd] in Hst. destruct Hst as (Hs & Hl & Hi & He).
  assert (Hseasons : season_rest <$> <[pos := latest']> (seasons show)
                     = season_rest <$> seasons show).
  { apply (fmap_insert_same _ _ _ latest); [done|]. by rewrite Hi, Hl, He. }
  destruct (should_process _ _); cbn [negb].
  2:{ unfold unmanaged_view. cbn [pass_show tmdb_guid show_obj seasons].
      by rewrite Hguid, Hs, Hseasons. }
  destruct (final_season_index _) as [final|].
  2:{ unfold unmanaged_view. cbn [pass_show tmdb_guid show_obj seasons].
      by rewrite Hguid, Hs, Hseasons. }
  set (all_tmdb_data := fetch_seasons _ _).
  pose proof (unmanaged_season_loop today (PyStr.lower (status tmdb_data))
                all_tmdb_data final (index latest)
                (<[pos := latest']> (seasons show)) None false) as Hloop.
  pose proof (season_loop_label today (PyStr.lower (status tmdb_data))
                all_tmdb_data final (index latest)
                (<[pos := latest']> (seasons show)) None false
                (or_introl eq_refl)) as [Hlbl _].
  destruct (season_loop _ _ _ _ _ _ _ _) as [[plex_seasons lbl] m].
  cbn [fst snd] in Hloop, Hlbl.
  assert (Hshow : unmanaged
                    (server
                       (match lbl with
                        | Some l =>
                            let '(o, updated) := set_label show_o l in
                            (o, m || updated)
                        | None => (remove_all_special_labels show_o, m)
                        end).1)
                  = unmanaged (server show_o)).
  { destruct lbl as [l|].
    - assert (Hl' : l ∈ SPECIAL_LABELS).
      { destruct Hlbl as [?|Hc]; [done|]. symmetry in Hc.
        by apply computed_season_label_special in Hc. }
      pose proof (unmanaged_set_label show_o l Hl') as H.
      by destruct (set_label show_o l).
    - apply unmanaged_remove_all_special_labels. }
  destruct (match lbl with
            | Some l => _ | None => _ end) as [o am].
  cbn [fst] in Hshow. unfold unmanaged_view.
  cbn [pass_show tmdb_guid show_obj seasons].
  by rewrite Hguid, Hshow, Hs, Hloop, Hseasons.
Qed.

End Unmanaged.

(** ** The candidate episodes *)

Section Candidates.

Lemma dict_get_set k k' v d :
  dict_get k (dict_set k' v d) = if decide (k = k') then Some v
                                 else dict_get k d.
Proof.
  induction d as [|[k0 v0] d IH]; cbn.
  - case_decide as H; [by rewrite (proj2 (Z.eqb_eq _ _) H)|].
    by rewrite (proj2 (Z.eqb_neq _ _) H).
  - destruct (k' =? k0) eqn:E'; cbn.
    + apply Z.eqb_eq in E' as ->. destruct (k =? k0) eqn:E.
      * apply Z.eqb_eq in E as ->. by rewrite decide_True.
      * apply Z.eqb_neq in E. by rewrite decide_False.
    + apply Z.eqb_neq in E'. destruct (k =? k0) eqn:E.
      * apply Z.eqb_eq in E as ->. by rewrite decide_False.
      * by rewrite IH.
Qed.

Lemma dict_get_None k d : dict_get k d = None ↔ k ∉ d.*1.
Proof.
  induction d as [|[k0 v0] d IH]; cbn.
  - split; [intros _; apply not_elem_of_nil|done].
  - rewrite not_elem_of_cons. destruct (k =? k0) eqn:E.
    + apply Z.eqb_eq in E. split; [done|tauto].
    + apply Z.eqb_neq in E. rewrite IH. tauto.
Qed.

(** The candidate of the episodes numbered [k], reading the TMDb list from
    its end: the label of the last aired episode of that number that has
    one. *)
Lemma candidate_episodes_get today i final tmdb_status eps k :
  dict_get k (candidate_episodes today i final tmdb_status eps)
  = head (omap (fun ep =>
                  if has_aired today ep && (ep_number ep =? k)
                  then episode_candidate i final tmdb_status ep else None)
               (reverse eps)).
Proof.
  unfold candidate_episodes.
  assert (H : ∀ d,
    dict_get k
      (foldl (fun d ep =>
                match ep_air_date ep with
                | None => d
                | Some ep_date =>
                    if date_gtb ep_date today then d
                    else match episode_candidate i final tmdb_status ep with
                         | Some candidate =>
                             dict_set (ep_number ep) candidate d
                         | None => d
                         end
                end) d eps)
    = match head (omap (fun ep =>
                          if has_aired today ep && (ep_number ep =? k)
                          then episode_candidate i final tmdb_status ep
                          else None) (reverse eps)) with
      | Some c => Some c
      | None => dict_get k d
      end).
  { induction eps as [|ep eps IH]; intros d; [done|].
    cbn [foldl]. rewrite IH, reverse_cons, omap_app. clear IH.
    destruct (omap _ (reverse eps)) as [|c cs]; [|done].
    cbn [app head omap list_omap]. unfold has_aired.
    destruct (ep_air_date ep) as [ep_date|]; [|done].
    destruct (date_gtb ep_date today); [done|]. cbn [negb andb].
    destruct (ep_number ep =? k) eqn:E.
    - apply Z.eqb_eq in E.
      destruct (episode_candidate _ _ _ ep); [|done]. cbn.
      by rewrite dict_get_set, decide_True.
    - apply Z.eqb_neq in E. cbn.
      destruct (episode_candidate _ _ _ ep); [|done].
      by rewrite dict_get_set, decide_False. }
  rewrite H. by destruct (head _).
Qed.

(** X7. The dictionary of lines 370-391 has an entry for an episode number
    exactly when an aired TMDb episode of that number has a Special label; the
    entry is the label of such an episode, and of the only one when the number
    occurs once among the aired episodes. An unaired episode or one without an
    air date never gives an entry. *)
Theorem candidate_episodes_entries (today : date) (season_index final : Z)
    (tmdb_status : string) (tmdb_episodes : list TmdbEpisode) (k : Z) :
  let d := candidate_episodes today season_index final tmdb_status
                              tmdb_episodes in
  let labelled ep c :=
    ep ∈ tmdb_episodes ∧ has_aired today ep = true ∧ ep_number ep = k
    ∧ episode_candidate season_index final tmdb_status ep = Some c in
  NoDup d.*1
  ∧ (∀ c, dict_get k d = Some c → ∃ ep, labelled ep c)
  ∧ (∀ ep c, labelled ep c → is_Some (dict_get k d))
  ∧ (∀ ep c, labelled ep c →
       (∀ ep', ep' ∈ tmdb_episodes → has_aired today ep' = true →
               ep_number ep' = k → ep' = ep) →
       dict_get k d = Some c).
Proof.
  cbv zeta. split; [apply candidate_episodes_wf|].
  rewrite candidate_episodes_get.
  set (f := fun ep => if has_aired today ep && (ep_number ep =? k)
                      then episode_candidate season_index final tmdb_status ep
                      else None).
  assert (Hf : ∀ ep c, f ep = Some c
                       ↔ has_aired today ep = true ∧ ep_number ep = k
                         ∧ episode_candidate season_index final tmdb_status ep
                           = Some c).
  { intros ep c. unfold f. destruct (has_aired today ep); cbn [andb];
      [|split; [done|intros (? & _); done]].
    destruct (ep_number ep =? k) eqn:E.
    - apply Z.eqb_eq in E. tauto.
    - apply Z.eqb_neq in E. split; [done|tauto]. }
  assert (Hin : ∀ c, c ∈ omap f (reverse tmdb_episodes)
                     ↔ ∃ ep, ep ∈ tmdb_episodes ∧ f ep = Some c).
  { intros c. rewrite list_elem_of_omap.
    split; intros (ep & Hep & Hc); exists ep;
      [rewrite elem_of_reverse in Hep|rewrite elem_of_reverse]; done. }
  split; [|split].
  - intros c Hc. apply head_Some_elem_of, Hin in Hc as (ep & Hep & Hc).
    exists ep. apply Hf in Hc. tauto.
  - intros ep c (Hep & Hrest).
    assert (Hc : c ∈ omap f (reverse tmdb_episodes)).
    { apply Hin. exists ep. split; [done|]. by apply Hf. }
    destruct (omap f (reverse tmdb_episodes)); [by apply elem_of_nil in Hc|].
    by eexists.
  - intros ep c (Hep & Hrest) Honly.
    assert (Hc : c ∈ omap f (reverse tmdb_episodes)).
    { apply Hin. exists ep. split; [done|]. by apply Hf. }
    destruct (omap f (reverse tmdb_episodes)) as [|c' cs] eqn:E;
      [by apply elem_of_nil in Hc|].
    cbn. f_equal.
    assert (Hc' : c' ∈ c' :: cs) by by left.
    apply Hin in Hc' as (ep' & Hep' & Hc'). apply Hf in Hc'.
    destruct Hc' as (Ha & Hk & Hcand).
    rewrite (Honly ep' Hep' Ha Hk) in Hcand. destruct Hrest as (_ & _ & Hc0).
    congruence.
Qed.

End Candidates.

(** ** Seasons and episodes after a pass *)

Section AfterPass.



Variables (today : date) (tmdb_status : string)
          (all_tmdb_data : gmap Z (list TmdbEpisode))
          (final latest_index : Z).



End AfterPass.

Section PassResults.






Lemma fetch_seasons_no_answer
    (fetch : list Z → option (gmap Z (list TmdbEpisode))) (ns : list Z) :
  (∀ batch, batch ∈ chunks ns 20 → fetch batch = None) →
  final_season_index (fetch_seasons fetch ns) = None.
Proof.
  intros Hnone. unfold fetch_seasons. by rewrite fetch_batches_None.
Qed.

(** X10. When no season request is answered, or when every season of Plex has
    index 0 so that none is sent, a pass that gets past the change gate ends
    in the error of line 324: it never completes, writes no entry in the
    update log and changes no Special label. *)
Theorem no_season_data_ends_the_pass (tmdb_response : option TmdbShow)
    (fetch : list Z → option (gmap Z (list TmdbEpisode)))
    (today : date) (now : datetime) (show : PlexShow)
    (update_log : gmap string datetime) :
  (∀ s, s ∈ seasons show → index s = 0)
  ∨ (∀ batch, batch ∈ chunks (season_numbers (seasons show)) 20 →
              fetch batch = None) →
  let p := process_show tmdb_response fetch today now show update_log in
  (∀ any_modified, pass_outcome p ≠ Completed any_modified)
  ∧ pass_log p = update_log
  ∧ special_view (pass_show p) = special_view show
  ∧ (∀ tmdb_id tmdb_data,
       tmdb_guid show = Some tmdb_id → PyStr.truthy tmdb_id = true →
       tmdb_response = Some tmdb_data → seasons show ≠ [] →
       should_process (update_log !! tmdb_id) (last_air_date tmdb_data)
       = true →
       pass_outcome p = UnexpectedError).
Proof.
  intros Hno.
  assert (Hfin : final_season_index
                   (fetch_seasons fetch (season_numbers (seasons show)))
                 = None).
  { apply fetch_seasons_no_answer. destruct Hno as [Hzero|Hnone]; [|done].
    assert (Hns : season_numbers (seasons show) = []).
    { unfold season_numbers. induction (seasons show) as [|s l IH]; [done|].
      cbn. rewrite (Hzero s) by by left. cbn. apply IH.
      intros s' Hs'. apply Hzero. by right. }
    rewrite Hns. intros batch Hb. by apply elem_of_nil in Hb. }
  cbv zeta. unfold process_show.
  destruct (tmdb_guid show) as [tmdb_id|] eqn:Hguid;
    [|repeat split; try done; by intros ?? [=]].
  destruct (PyStr.truthy tmdb_id) eqn:Ht; cbn [negb];
    [|repeat split; try done; intros ?? [= <-]; congruence].
  destruct tmdb_response as [tmdb_data|];
    [|repeat split; try done; by intros ?? _ _ [=]].
  destruct (py_max index (seasons show)) as [[pos latest]|] eqn:Hmax.
  2:{ repeat split; try done. intros ?? _ _ _ Hne.
      by destruct (seasons show). }
  pose proof (status_phase_frame tmdb_data today show
                (PyStr.lower (status tmdb_data)) pos latest Hmax) as Hfr.
  cbv zeta in Hfr.
  destruct (set_status_label tmdb_data today (show_obj show)
              (PyStr.lower (status tmdb_data)) latest) as [show_o latest'].
  cbn [fst snd] in Hfr. destruct Hfr as (Hsp & Hss & Hidx & _).
  assert (Hview : special_view
                    (mkShow (Some tmdb_id) show_o
                            (<[pos := latest']> (seasons show)))
                  = special_view show).
  { unfold special_view. cbn [show_obj seasons]. by rewrite Hsp, Hss. }
  destruct (should_process _ _) eqn:Hgate; cbn [negb].
  - unfold season_numbers in *. rewrite Hidx, Hfin.
    repeat split; try done. 
  - repeat split; try done. intros ?? [= <-] _ [= <-]. congruence.
Qed.

Lemma no_season_data_ends_the_pass_witness :
  let show := mkShow (Some "42") (fetched {[ "Pilot" ]})
                     [mkSeason 0 (fetched ∅) ∅] in
  let p := process_show (Some Ex.tmdb) Ex.fetch Ex.today Ex.now1 show ∅ in
  pass_log p = ∅ ∧ special_view (pass_show p) = special_view show.
Proof.
  cbv zeta.
  destruct (no_season_data_ends_the_pass (Some Ex.tmdb) Ex.fetch Ex.today
              Ex.now1
              (mkShow (Some "42") (fetched {[ "Pilot" ]})
                      [mkSeason 0 (fetched ∅) ∅]) ∅)
    as (_ & Hlog & Hview & _).
  - left. intros s ->%list_elem_of_singleton. reflexivity.
  - split; [exact Hlog|exact Hview].
Defined.

(** X11. The change gate, for a show with a TMDb id, an answer from TMDb and
    at least one season: the show is skipped exactly when the update log has
    an entry for its id and TMDb gives no last air date or one that is not on
    a later calendar day than the entry. The time of day of the entry plays no
    part. *)
Theorem change_gate_decision (tmdb_data : TmdbShow)
    (fetch : list Z → option (gmap Z (list TmdbEpisode)))
    (today : date) (now : datetime) (show : PlexShow)
    (update_log : gmap string datetime) (tmdb_id : string) :
  tmdb_guid show = Some tmdb_id → PyStr.truthy tmdb_id = true →
  seasons show ≠ [] →
  (∀ u, update_log !! tmdb_id = Some u → 0 ≤ dt_micro u) →
  let p := process_show (Some tmdb_data) fetch today now show update_log in
  pass_outcome p = NoNewEpisodes
  ↔ ∃ u, update_log !! tmdb_id = Some u
         ∧ match last_air_date tmdb_data with
           | Some d => date_leb d (dt_date u) = true
           | None => True
           end.
Proof.
  intros Hguid Ht Hne Hmicro. cbv zeta. unfold process_show.
  rewrite Hguid, Ht. cbn [negb].
  destruct (py_max index (seasons show)) as [[pos latest]|] eqn:Hmax.
  2:{ by destruct (seasons show). }
  destruct (set_status_label tmdb_data today (show_obj show)
              (PyStr.lower (status tmdb_data)) latest) as [show_o latest'].
  assert (Hgate : should_process (update_log !! tmdb_id)
                                 (last_air_date tmdb_data) = false
                  ↔ ∃ u, update_log !! tmdb_id = Some u
                         ∧ match last_air_date tmdb_data with
                           | Some d => date_leb d (dt_date u) = true
                           | None => True
                           end).
  { unfold should_process.
    destruct (update_log !! tmdb_id) as [u|] eqn:Hu.
    - rewrite bool_decide_eq_true_2 by by eexists. cbn [negb orb].
      specialize (Hmicro u eq_refl).
      destruct (last_air_date tmdb_data) as [d|]; cbn.
      + unfold datetime_gtb, midnight, date_gtb. cbn [dt_date dt_micro].
        replace (dt_micro u <? 0) with false by lia.
        rewrite andb_false_r, orb_false_r, negb_false_iff.
        split; [by exists u|]. by intros (? & [= <-] & ?).
      + split; [by exists u|done].
    - rewrite bool_decide_eq_false_2 by by intros [??]. cbn.
      split; [done|]. by intros (? & ? & _). }
  destruct (should_process _ _) eqn:Hsp; cbn [negb].
  - assert (Hnot : ¬ ∃ u, update_log !! tmdb_id = Some u
                          ∧ match last_air_date tmdb_data with
                            | Some d => date_leb d (dt_date u) = true
                            | None => True
                            end).
    { intros H. apply Hgate in H. done. }
    destruct (final_season_index _); [|by split].
    destruct (season_loop _ _ _ _ _ _ _ _) as [[plex_seasons lbl] m].
    destruct lbl as [l|]; [destruct (set_label show_o l)|]; by split.
  - split; [intros _; by apply Hgate|done].
Qed.

Lemma change_gate_decision_witness :
  pass_outcome (Ex.run Ex.tmdb Ex.now2 Ex.show0 {[ "42" := Ex.now1 ]})
  = NoNewEpisodes.
Proof.
  apply (change_gate_decision Ex.tmdb Ex.fetch Ex.today Ex.now2 Ex.show0
           {[ "42" := Ex.now1 ]} "42" eq_refl eq_refl).
  - discriminate.
  - intros u. rewrite lookup_singleton_eq. intros [= <-]. cbn. lia.
  - exists Ex.now1. split; [apply lookup_singleton_eq|reflexivity].
Defined.

End PassResults.

(** ** [set_status_label] in closed form *)

Section StatusClosedForm.

Implicit Types (ls : gset string).

(** The label [l] when the object does not carry it yet. *)
Local Abbreviation fresh :=
  (fun (l : string) (ls : gset string) =>
     if decide (l ∈ ls) then (∅ : gset string) else {[ l ]}).




End StatusClosedForm.

(** ** Clear mode and the run as a whole *)

Section ClearAndRun.

Lemma clear_labels_server (managed_tag : string → bool) o :
  server (clear_labels managed_tag o)
  = server o ∖ filter (fun x => managed_tag x = true) (server o).
Proof.
  unfold clear_labels. cbn [reload labels].
  pose proof (remove_loop managed_tag (server o)
                {| labels := server o; server := server o |}) as [_ Hs].
  cbn [server] in Hs. apply set_eq. intros x.
  rewrite Hs, elem_of_difference, elem_of_filter. tauto.
Qed.

(** X13. Clear mode removes from every show the Special labels and the labels
    of [STATUS_LABELS], from every season and every episode the Special
    labels, and nothing else: labels with an Upcoming prefix, Status labels
    outside [STATUS_LABELS] and Status labels on seasons and episodes stay. It
    adds no label, keeps the seasons and episodes, and leaves no update log
    file, so that the next run starts from an empty update log. *)
Theorem clear_mode_result (shows_to_clear : list PlexShow)
    (log_file : option (gmap string datetime)) :
  let r := clear_mode shows_to_clear log_file in
  (fun show => (tmdb_guid show, server (show_obj show),
                (fun s => (index s, server (season_obj s),
                           season_episodes s)) <$> seasons show)) <$> r.1
  = (fun show => (tmdb_guid show,
                  server (show_obj show) ∖ (SPECIAL_LABELS ∪ STATUS_LABELS),
                  (fun s => (index s, server (season_obj s) ∖ SPECIAL_LABELS,
                             (fun stored : gset string =>
                                stored ∖ SPECIAL_LABELS)
                               <$> season_episodes s)) <$> seasons show))
      <$> shows_to_clear
  ∧ r.2 = None
  ∧ load_update_log r.2 = ∅.
Proof.
  cbv zeta. unfold clear_mode. cbn [fst snd]. split; [|done].
  rewrite <- list_fmap_compose. apply list_fmap_ext. intros _ show _.
  unfold clear_show. cbn [tmdb_guid show_obj seasons compose].
  assert (Hsp : ∀ X : gset string,
            X ∖ filter (fun x => in_special x = true) X = X ∖ SPECIAL_LABELS).
  { intros X. apply set_eq. intros x.
    rewrite !elem_of_difference, elem_of_filter. unfold in_special.
    rewrite bool_decide_eq_true. tauto. }
  f_equal; [f_equal|].
  - rewrite clear_labels_server. apply set_eq. intros x.
    rewrite !elem_of_difference, elem_of_filter, elem_of_union.
    unfold in_special_or_status.
    rewrite orb_true_iff, !bool_decide_eq_true. tauto.
  - rewrite <- list_fmap_compose. apply list_fmap_ext. intros _ s _.
    unfold clear_season. cbn [index season_obj season_episodes compose].
    f_equal; [f_equal|].
    + by rewrite clear_labels_server, Hsp.
    + apply map_fmap_ext. intros k stored _.
      by rewrite clear_labels_server, Hsp.
Qed.

Lemma process_show_log_cases tmdb_response fetch today now show update_log :
  let p := process_show tmdb_response fetch today now show update_log in
  pass_log p = update_log
  ∨ ∃ tmdb_id, tmdb_guid show = Some tmdb_id
               ∧ pass_log p = <[tmdb_id := now]> update_log.
Proof.
  cbv zeta. unfold process_show.
  destruct (tmdb_guid show) as [tmdb_id|]; [|by left].
  destruct (PyStr.truthy tmdb_id); cbn [negb]; [|by left].
  destruct tmdb_response as [tmdb_data|]; [|by left].
  destruct (py_max index (seasons show)) as [[pos latest]|]; [|by left].
  destruct (set_status_label _ _ _ _ _) as [show_o latest'].
  destruct (should_process _ _); cbn [negb]; [|by left].
  destruct (final_season_index _) as [final|]; [|by left].
  destruct (season_loop _ _ _ _ _ _ _ _) as [[plex_seasons lbl] m].
  destruct (match lbl with Some l => _ | None => _ end) as [o am].
  destruct am; [right; by eexists|by left].
Qed.

(** X14. The main loop handles every show of the list, whatever happens to the
    ones before it, and only ever adds to the update log: no entry is removed,
    and an entry that differs from the one at the start belongs to the TMDb id
    of a show of the list and holds the clock of the pass over that show. *)
Theorem main_loop_update_log (today : date) (all_shows : list job)
    (update_log : gmap string datetime) :
  let r := main_loop today all_shows update_log in
  length r.1 = length all_shows
  ∧ dom update_log ⊆ dom r.2
  ∧ ∀ k, r.2 !! k = update_log !! k
         ∨ ∃ j, j ∈ all_shows ∧ tmdb_guid (job_show j) = Some k
                ∧ r.2 !! k = Some (job_now j).
Proof.
  cbv zeta. revert update_log.
  induction all_shows as [|j rest IH]; intros update_log.
  - cbn. split; [done|]. split; [done|]. by left.
  - cbn [main_loop].
    pose proof (process_show_log_cases (job_response j) (job_fetch j) today
                  (job_now j) (job_show j) update_log) as Hj.
    cbv zeta in Hj.
    destruct (IH (pass_log (process_show (job_response j) (job_fetch j) today
                              (job_now j) (job_show j) update_log)))
      as (Hlen & Hdom & Hk).
    destruct (main_loop today rest _) as [passes log']. cbn [fst snd] in *.
    split; [cbn; congruence|]. split.
    + destruct Hj as [Hj|(id & _ & Hj)]; rewrite Hj in Hdom; [done|].
      rewrite dom_insert_L in Hdom. set_solver.
    + intros k. destruct (Hk k) as [Heq|(j' & Hj' & Hg & Hv)].
      * destruct Hj as [Hj|(id & Hg & Hj)]; rewrite Hj in Heq; [by left|].
        destruct (decide (id = k)) as [->|Hne].
        -- right. exists j. rewrite lookup_insert_eq in Heq.
           split; [by left|done].
        -- left. by rewrite lookup_insert_ne in Heq.
      * right. exists j'. split; [by right|done].
Qed.

End ClearAndRun.

(** ** [get_tmdb_id] *)

Section TmdbId.

Import PySplit.

Lemma append_cons x (a b : string) : String x a +:+ b = String x (a +:+ b).
Proof. reflexivity. Qed.



Lemma has_char_append c a b :
  has_char c (a +:+ b) = has_char c a || has_char c b.
Proof.
  induction a as [|x a IH]; [done|].
  rewrite append_cons. cbn [has_char]. by rewrite IH, orb_assoc.
Qed.


Lemma split_from_nonempty sep skip piece s : split_from sep skip piece s ≠ [].
Proof.
  revert skip piece. induction s as [|c s IH]; intros skip piece; [done|].
  cbn [split_from]. destruct skip; [|apply IH].
  destruct (String.prefix sep (String c s)); [done|apply IH].
Qed.



Lemma split_question_first piece s :
  has_char "?" piece = false →
  ∃ h rest, split_from "?" 0 piece s = h :: rest ∧ has_char "?" h = false.
Proof.
  revert piece. induction s as [|c s IH]; intros piece Hp.
  - by exists piece, [].
  - cbn [split_from].
    destruct (String.prefix "?" (String c s)) eqn:E; [by eexists _, _|].
    apply IH. rewrite has_char_append, Hp. cbn. rewrite orb_false_r.
    destruct (Ascii.eqb "?" c) eqn:Ec; [|done].
    apply Ascii.eqb_eq in Ec as <-. cbn in E. by destruct s.
Qed.

Lemma get_tmdb_id_here guid_str :
  PyStr.startswith guid_str "tmdb://" = true →
  ∃ tail rest h pieces,
    split guid_str "tmdb://" = "" :: tail :: rest
    ∧ split tail "?" = h :: pieces
    ∧ has_char "?" h = false
    ∧ ∀ others, get_tmdb_id (guid_str :: others) = Some h.
Proof.
  intros Hs. unfold split.
  destruct guid_str as [|c s]; [done|]. cbn [split_from get_tmdb_id].
  unfold PyStr.startswith in Hs. rewrite Hs.
  destruct (split_from "tmdb://" (String.length "tmdb://" - 1) "" s)
    as [|tail rest] eqn:E; [by apply split_from_nonempty in E|].
  destruct (split_question_first "" tail eq_refl) as (h & pieces & Hq & Hh).
  exists tail, rest, h, pieces. split; [done|]. split; [done|].
  split; [done|]. intros others. unfold split, PyStr.startswith.
  cbn [split_from]. rewrite Hs, E. cbn. by rewrite Hq.
Qed.

(** X15. [get_tmdb_id] answers [None] exactly when no guid starts with
    "tmdb://". Otherwise the first guid that does decides, whatever comes
    after it, and the id never contains "?". *)
Theorem get_tmdb_id_first_guid (guids : list string) :
  (get_tmdb_id guids = None
   ↔ Forall (fun g => PyStr.startswith g "tmdb://" = false) guids)
  ∧ (∀ before g after,
       guids = (before ++ g :: after)%list →
       Forall (fun g => PyStr.startswith g "tmdb://" = false) before →
       PyStr.startswith g "tmdb://" = true →
       get_tmdb_id guids = get_tmdb_id [g])
  ∧ (∀ tmdb_id, get_tmdb_id guids = Some tmdb_id →
                has_char "?" tmdb_id = false).
Proof.
  split; [|split].
  - induction guids as [|g guids IH]; [by split|].
    destruct (PyStr.startswith g "tmdb://") eqn:E.
    + destruct (get_tmdb_id_here g E) as (? & ? & h & ? & _ & _ & _ & Hg).
      rewrite Hg. split; [done|]. intros [? _]%Forall_cons. congruence.
    + cbn [get_tmdb_id]. rewrite E, IH, Forall_cons. tauto.
  - intros before g after -> Hb Hg.
    destruct (get_tmdb_id_here g Hg) as (? & ? & h & ? & _ & _ & _ & Hh).
    rewrite (Hh []). clear -Hb Hh.
    induction Hb as [|b before Hb _ IH]; [apply Hh|].
    cbn [app get_tmdb_id]. by rewrite Hb.
  - induction guids as [|g guids IH]; intros tmdb_id; [done|].
    destruct (PyStr.startswith g "tmdb://") eqn:E.
    + destruct (get_tmdb_id_here g E) as (? & ? & h & ? & _ & _ & Hq & Hg).
      rewrite Hg. by intros [= <-].
    + cbn [get_tmdb_id]. rewrite E. apply IH.
Qed.



End TmdbId.

(** ** [get_filtered_shows] *)

Section FilteredShows.

Lemma foldl_insert_other (c : string) (cs : list (string * list PlexShow))
    (d : gmap string (list PlexShow)) :
  c ∉ cs.*1 → foldl (fun d c => <[c.1 := c.2]> d) d cs !! c = d !! c.
Proof.
  revert d. induction cs as [|[t items] cs IH]; intros d Hc; [done|].
  cbn in *. apply not_elem_of_cons in Hc as [Hne Hc].
  rewrite IH by done. by rewrite lookup_insert_ne.
Qed.

Lemma collection_dict_None c cs :
  collection_dict cs !! c = None ↔ c ∉ cs.*1.
Proof.
  unfold collection_dict.
  assert (H : ∀ d : gmap string (list PlexShow),
             foldl (fun d c => <[c.1 := c.2]> d) d cs !! c = None
             ↔ d !! c = None ∧ c ∉ cs.*1).
  { induction cs as [|[t items] cs IH]; intros d.
    - cbn. split; [|tauto]. split; [done|apply not_elem_of_nil].
    - cbn. rewrite IH, not_elem_of_cons.
      destruct (decide (c = t)) as [->|Hne].
      + rewrite lookup_insert_eq. split; [by intros [? _]|tauto].
      + rewrite lookup_insert_ne by done. tauto. }
  rewrite H, lookup_empty. tauto.
Qed.

Lemma collection_dict_last c items before after :
  c ∉ after.*1 →
  collection_dict (before ++ (c, items) :: after)%list !! c = Some items.
Proof.
  intros Hc. unfold collection_dict. rewrite foldl_app. cbn.
  rewrite foldl_insert_other by done. apply lookup_insert_eq.
Qed.

(** X17. A collection that is named but cannot be had (the request raises, or
    no collection has that title), and a TMDb id that is named but gives no
    title (the request fails, or both names are empty), each empty the
    selection, whatever the other filters are: also when a title is given,
    which would have replaced what they select. *)
Theorem get_filtered_shows_gives_up (args : Args) (tv_library : Library)
    (tmdb_lookup : option TmdbName) :
  (∀ collection,
     given (arg_collection args) = Some collection →
     from_option (fun cs => collection ∉ cs.*1) True
                 (lib_collections tv_library) →
     get_filtered_shows args tv_library tmdb_lookup = [])
  ∧ (∀ tmdb_id,
       given (arg_tmdb args) = Some tmdb_id →
       from_option (fun data => given (tmdb_name data) = None
                                ∧ given (tmdb_original_name data) = None)
                   True tmdb_lookup →
       get_filtered_shows args tv_library tmdb_lookup = []).
Proof.
  split.
  - intros collection Hc Hmiss. unfold get_filtered_shows. rewrite Hc.
    destruct (lib_collections tv_library) as [cs|]; [|done]. cbn in Hmiss.
    apply collection_dict_None in Hmiss. by rewrite Hmiss.
  - intros tmdb_id Ht Hmiss. unfold get_filtered_shows. rewrite Ht.
    destruct tmdb_lookup as [data|]; cbn in Hmiss.
    + destruct Hmiss as [-> ->]. by repeat case_match.
    + by repeat case_match.
Qed.

(** X18. What [get_filtered_shows] selects. Without any filter it is the whole
    library. With a label every selected show carries it. With a title the
    selection is empty or the shows of the title search that pass the label
    filter: the collection and the TMDb id no longer choose the shows. With a
    collection alone it is the items of the last collection of that title. *)
Theorem get_filtered_shows_selection (args : Args) (tv_library : Library)
    (tmdb_lookup : option TmdbName) :
  let selection := get_filtered_shows args tv_library tmdb_lookup in
  let keep shows :=
    match given (arg_label args) with
    | Some label =>
        List.filter
          (fun show => bool_decide (label ∈ labels (show_obj show))) shows
    | None => shows
    end in
  (given (arg_collection args) = None → given (arg_tmdb args) = None →
   given (arg_title args) = None → given (arg_label args) = None →
   selection = lib_search tv_library)
  ∧ (∀ label, given (arg_label args) = Some label →
       Forall (fun show => label ∈ labels (show_obj show)) selection)
  ∧ (∀ title, given (arg_title args) = Some title →
       selection = []
       ∨ selection = keep (lib_search_title tv_library title))
  ∧ (∀ collection before items after,
       given (arg_collection args) = Some collection →
       given (arg_tmdb args) = None → given (arg_title args) = None →
       lib_collections tv_library
       = Some (before ++ (collection, items) :: after)%list →
       collection ∉ after.*1 →
       selection = keep items).
Proof.
  cbv zeta. split; [|split; [|split]].
  - intros Hc Ht Hti Hl. unfold get_filtered_shows.
    by rewrite Hc, Ht, Hti, Hl.
  - intros label Hl. unfold get_filtered_shows. rewrite Hl.
    repeat case_match; try apply Forall_nil_2; apply Forall_forall;
      intros show [_ Hin%bool_decide_eq_true_1]%list_elem_of_In%filter_In;
      done.
  - intros title Hti. unfold get_filtered_shows. rewrite Hti.
    repeat case_match; auto.
  - intros collection before items after Hc Ht Hti Hcs Hlast.
    unfold get_filtered_shows.
    rewrite Hc, Ht, Hti, Hcs, collection_dict_last by done. done.
Qed.

End FilteredShows.

(** ** The text of the upcoming label and the choice of [max] *)

Section UpcomingText.

Lemma strftime_A_day_name (d : date) : strftime_A d ∈ DAY_NAMES.
Proof.
  unfold strftime_A, weekday.
  pose proof (Z.mod_pos_bound (toordinal d + 6) 7 ltac:(lia)) as Hw.
  remember ((toordinal d + 6) mod 7) as w eqn:E. clear E.
  assert (Hc : w = 0 ∨ w = 1 ∨ w = 2 ∨ w = 3 ∨ w = 4 ∨ w = 5 ∨ w = 6)
    by lia.
  apply list_elem_of_In.
  destruct Hc as [-> | [-> | [-> | [-> | [-> | [-> | ->]]]]]]; cbn; tauto.
Qed.

(** X19. The text of the derived label. A "New Episode" or "New Season" label
    is always followed by the name of the week day of the air date, never by a
    date, and stands for an air date at most [DAYS_TO_CONSIDER] days ahead, a
    past one included; a "Returning" label is always followed by the date as
    month/day, never by a day name, and stands for an air date 8 to
    [RETURNING_DAYS] days ahead. *)
Theorem upcoming_label_text (next_ep : option NextEpisode)
    (latest_index : Z) (today : date) :
  let air := next_ep ≫= air_date in
  let near (a : date) :=
    air = Some a ∧ days_between a today ≤ DAYS_TO_CONSIDER
    ∧ strftime_A a ∈ DAY_NAMES in
  match upcoming_label next_ep latest_index today with
  | NewEpisode l =>
      ∃ a, near a ∧ l = "New Episode " +:+ strftime_A a
  | NewSeason l =>
      ∃ a, near a ∧ l = "New Season " +:+ strftime_A a
  | Returning l =>
      ∃ a, air = Some a
           ∧ DAYS_TO_CONSIDER < days_between a today ≤ RETURNING_DAYS
           ∧ l = "Returning " +:+ strftime_m_d a
  | NoUpcoming =>
      ∀ a, air = Some a →
           RETURNING_DAYS < days_between a today
           ∨ (next_ep ≫= season_number) ∈ [None; Some 0]
           ∨ (next_ep ≫= episode_number) ∈ [None; Some 0]
  end.
Proof.
  cbv zeta. unfold upcoming_label.
  destruct next_ep as [n|]; cbn [mbind option_bind]; [|done].
  destruct (air_date n) as [a|]; [|done].
  destruct (truthy_int (season_number n)) eqn:Es; cbn [andb].
  2:{ intros ? _. right. left. unfold truthy_int in Es.
      destruct (season_number n) as [z|]; [|set_solver].
      apply negb_false_iff, Z.eqb_eq in Es as ->. set_solver. }
  destruct (truthy_int (episode_number n)) eqn:Ee.
  2:{ intros ? _. right. right. unfold truthy_int in Ee.
      destruct (episode_number n) as [z|]; [|set_solver].
      apply negb_false_iff, Z.eqb_eq in Ee as ->. set_solver. }
  unfold formatted_date, DAY_INDICATOR, DAYS_TO_CONSIDER, RETURNING_DAYS.
  cbn [andb].
  destruct (days_between a today <=? 7) eqn:E7.
  - apply Z.leb_le in E7.
    destruct (_ && _); exists a;
      (split; [split; [done|split; [done|apply strftime_A_day_name]]|done]).
  - apply Z.leb_gt in E7.
    destruct (days_between a today <=? 28) eqn:E28.
    + apply Z.leb_le in E28. exists a. split; [done|]. split; [lia|done].
    + apply Z.leb_gt in E28. intros ? [= <-]. left. lia.
Qed.

End UpcomingText.

Section FirstMaximum.

Context {A : Type} (key : A → Z).

Lemma py_max_from_first (l pre : list A) (best_pos : nat) (best : A) :
  pre !! best_pos = Some best →
  (∀ y, y ∈ pre → key y ≤ key best) →
  (∀ j y, (j < best_pos)%nat → pre !! j = Some y → key y < key best) →
  let r := py_max_from key best_pos best (length pre) l in
  ((pre ++ l)%list) !! r.1 = Some r.2
  ∧ (∀ y, y ∈ (pre ++ l)%list → key y ≤ key r.2)
  ∧ ∀ j y, (j < r.1)%nat → ((pre ++ l)%list) !! j = Some y →
           key y < key r.2.
Proof.
  revert pre best_pos best.
  induction l as [|x l IH]; intros pre best_pos best Hbest Hmax Hfirst; cbn.
  - rewrite app_nil_r. done.
  - specialize (IH (pre ++ [x])%list).
    rewrite length_app, Nat.add_1_r in IH. cbn in IH.
    rewrite (cons_middle x pre l), app_assoc.
    destruct (key best <? key x) eqn:E.
    + apply Z.ltb_lt in E. apply IH.
      * rewrite lookup_app_r by done. by rewrite Nat.sub_diag.
      * intros y [Hy| ->%list_elem_of_singleton]%elem_of_app;
          [apply Hmax in Hy; lia|lia].
      * intros j y Hj Hy. rewrite lookup_app_l in Hy by done.
        apply list_elem_of_lookup_2, Hmax in Hy. lia.
    + apply Z.ltb_ge in E. apply IH.
      * by apply lookup_app_l_Some.
      * intros y [Hy| ->%list_elem_of_singleton]%elem_of_app;
          [by apply Hmax|lia].
      * intros j y Hj Hy. apply (Hfirst j y Hj).
        apply lookup_lt_Some in Hbest.
        rewrite lookup_app_l in Hy by lia. done.
Qed.

(** X20. [max(l, key=...)], as lines 290 and 346 call it, fails exactly on the
    empty list; otherwise it gives an element of [l] whose key no element
    exceeds, and among the elements with that key the first one: every element
    before it has a smaller key. *)
Theorem py_max_first_maximal (l : list A) :
  match py_max key l with
  | None => l = []
  | Some (i, x) =>
      l !! i = Some x
      ∧ (∀ y, y ∈ l → key y ≤ key x)
      ∧ ∀ j y, (j < i)%nat → l !! j = Some y → key y < key x
  end.
Proof.
  destruct l as [|a l]; [done|]. cbn [py_max].
  pose proof (py_max_from_first l [a] 0%nat a eq_refl) as H. cbn in H.
  destruct (py_max_from key 0 a 1 l) as [i x]. apply H.
  - intros y ->%list_elem_of_singleton. lia.
  - intros j y Hj. lia.
Qed.

End FirstMaximum.

Section StatusCase.






End StatusCase.
